(** * Radial bar-chart glyphs of [www/glyph_calendar.js]

    A shallow embedding of the glyph layout ([radial_bars]), of the grid
    traversal ([drawGraphsForMonthlyData]) and of the random data generator
    ([randomNumbers], [getDataForMonth]), with the properties of the
    layout that the specification states; then of the calendar of the same
    file: [isLeapYear], [getDaysInMonth] and the controls that step the
    month and the year of the form.

    JavaScript numbers are modelled as exact rationals extended with
    [NaN] and the two infinities: the special values follow IEEE 754, the
    rounding of finite results is not modelled (there is no negative
    zero). *)

From Stdlib Require Import QArith Qabs Qround Lqa ZArith Lia List String Bool.
From Stdlib Require Import DecimalString DecimalPos DecimalZ.
Import ListNotations.

Open Scope Q_scope.

(** ** JavaScript numbers and values *)

Module JS.

Inductive num : Type :=
| Fin (q : Q)
| PInf
| NInf
| NaN.

(** A value read from an array: a number, or [undefined] when the index
    is out of range. *)
Inductive val : Type :=
| Undefined
| Num (n : num).

Definition ToNumber (v : val) : num :=
  match v with
  | Undefined => NaN
  | Num n => n
  end.

Definition Qltb (a b : Q) : bool := negb (Qle_bool b a).

Definition add (a b : num) : num :=
  match a, b with
  | Fin x, Fin y => Fin (x + y)
  | NaN, _ | _, NaN => NaN
  | PInf, NInf | NInf, PInf => NaN
  | PInf, _ | _, PInf => PInf
  | NInf, _ | _, NInf => NInf
  end.

Definition sub (a b : num) : num :=
  match a, b with
  | Fin x, Fin y => Fin (x - y)
  | NaN, _ | _, NaN => NaN
  | PInf, PInf | NInf, NInf => NaN
  | PInf, _ | _, NInf => PInf
  | NInf, _ | _, PInf => NInf
  end.

(** [Some true] for a positive number, [Some false] for a negative one,
    [None] for zero and [NaN]. *)
Definition sign (a : num) : option bool :=
  match a with
  | Fin x => if Qeq_bool x 0 then None else Some (Qltb 0 x)
  | PInf => Some true
  | NInf => Some false
  | NaN => None
  end.

Definition inf (positive : bool) : num := if positive then PInf else NInf.

Definition mul (a b : num) : num :=
  match a, b with
  | Fin x, Fin y => Fin (x * y)
  | NaN, _ | _, NaN => NaN
  | _, _ =>
      match sign a, sign b with
      | Some s, Some t => inf (Bool.eqb s t)
      | _, _ => NaN
      end
  end.

Definition div (a b : num) : num :=
  match a, b with
  | NaN, _ | _, NaN => NaN
  | Fin x, Fin y =>
      if Qeq_bool y 0
      then match sign a with
           | Some s => inf s
           | None => NaN
           end
      else Fin (x / y)
  | Fin _, (PInf | NInf) => Fin 0
  | (PInf | NInf), (PInf | NInf) => NaN
  | (PInf | NInf), Fin y =>
      match sign a with
      | Some s => inf (Bool.eqb s (Qle_bool 0 y))
      | None => NaN
      end
  end.

(** [a == b] on numbers. *)
Definition eqb (a b : num) : bool :=
  match a, b with
  | Fin x, Fin y => Qeq_bool x y
  | PInf, PInf | NInf, NInf => true
  | _, _ => false
  end.

(** [v == 0] for a value read from a numeric array; [undefined == 0] is
    false. *)
Definition eq_zero (v : val) : bool :=
  match v with
  | Undefined => false
  | Num n => eqb n (Fin 0)
  end.

(** [a <= b] on numbers; false as soon as one side is [NaN]. *)
Definition leb (a b : num) : bool :=
  match a, b with
  | NaN, _ | _, NaN => false
  | Fin x, Fin y => Qle_bool x y
  | NInf, _ | _, PInf => true
  | _, _ => false
  end.

Definition of_nat (i : nat) : num := Fin (inject_Z (Z.of_nat i)).

(** [a[i]]: [undefined] past the end of the array. *)
Definition index (a : list val) (i : nat) : val := nth i a Undefined.

End JS.

Import JS.

Declare Scope js_scope.
Delimit Scope js_scope with js.
Bind Scope js_scope with JS.num.
Infix "+" := JS.add : js_scope.
Infix "-" := JS.sub : js_scope.
Infix "*" := JS.mul : js_scope.
Infix "/" := JS.div : js_scope.

(** ** The linear scale *)

(** Modelled from the spec: [d3.scale.linear] of the D3 library, which is
    not part of the sources.  The spec gives it as the interpolation
    [range_min + (value - domain_min) * (range_max - range_min) /
    (domain_max - domain_min)], evaluated here in JavaScript arithmetic, so
    that a degenerate domain gives [NaN] or an infinity as the spec says the
    reference does.  Of a scale whose domain has two equal ends, the
    properties below use only the value at [undefined], which is [NaN]. *)
Definition linear (domain range : num * num) (value : val) : num :=
  let '(domain_min, domain_max) := domain in
  let '(range_min, range_max) := range in
  (range_min + (ToNumber value - domain_min) * (range_max - range_min)
               / (domain_max - domain_min))%js.

(** ** Elements of a glyph *)

Inductive transform : Type :=
| translate (tx ty : num).

Record circle : Type := {
  cx : num; cy : num; r : num;
  circle_stroke : string; circle_stroke_width : num; circle_fill : string }.

(** A [rect] element; an attribute the code does not set is [None]. *)
Record rect : Type := {
  rect_transform : option transform;
  x : option num; y : num;
  width : num; height : num;
  rect_stroke : option (string * num);
  fill : string;
  class : option string }.

Record text : Type := {
  text_x : num; text_y : num;
  text_fill : string; font_size : string;
  content : val }.

Inductive element : Type :=
| Circle (c : circle)
| Rect (b : rect)
| Text (t : text).

Record svg : Type := {
  svg_height : num; svg_width : num;
  children : list element }.

(** D3's data join on an empty selection:
    [selectAll(..).data(a).enter().append(tag)] appends one element per entry
    of [a], in order, and every attribute function is called with the entry
    and its index. *)
Fixpoint enter_from {A : Type} (i : nat) (data : list A)
    (make : A -> nat -> element) : list element :=
  match data with
  | [] => []
  | d :: rest => make d i :: enter_from (S i) rest make
  end.

Definition enter {A : Type} (data : list A) (make : A -> nat -> element)
  : list element := enter_from 0 data make.

(** ** The glyph layout: [radial_bars] *)

Open Scope string_scope.

Definition transparent : string := "transparent".

(** [colors[i]] of a two-entry colour pair, read only at the indices 0 and 1
    of a data join over two entries. *)
Definition color_at (colors : list string) (i : nat) : string :=
  nth i colors "undefined".

Section RadialBars.

Variable data : list val.
Variables number_of_bars max_number : num.
Variable date : val.
Variable shade : val.

(* Data broken up into pairs for each of four directions *)
Definition leftData : list val := [index data 0; index data 1].
Definition rightData : list val := [index data 2; index data 3].
Definition upData : list val := [index data 4; index data 5].
Definition downData : list val := [index data 6; index data 7].

(* Colors broken up into pairs for each of four directions *)
Definition walk_pre_color := "#20AED8".
Definition walk_post_color := "#2C1EA2".
Definition stand_pre_color := "#6E6E6E".
Definition stand_post_color := "#151515".
Definition voice_pre_color := "#EEBE32".
Definition voice_post_color := "#9F5B0D".
Definition tap_pre_color := "#F78181".
Definition tap_post_color := "#C02504".
Definition colors : list string :=
  [walk_pre_color; walk_post_color; stand_pre_color; stand_post_color;
   voice_pre_color; voice_post_color; tap_pre_color; tap_post_color].
Definition leftColors : list string := [color_at colors 0; color_at colors 1].
Definition rightColors : list string := [color_at colors 2; color_at colors 3].
Definition upColors : list string := [color_at colors 4; color_at colors 5].
Definition downColors : list string := [color_at colors 6; color_at colors 7].

Definition background_color : string :=
  if eq_zero shade then "#e2e2e2" else "#e2e2e2".
Definition empty_color : string :=
  if eq_zero shade then "#ffffff" else "#ffffff".

(* Plot dimensions *)
Definition bar_width : num := Fin 15.
Definition bar_length : num := Fin 50.
Definition left_origin : num := bar_length.
Definition barplot_width : num := (number_of_bars * bar_width)%js.
Definition total_width : num := (barplot_width + Fin 2 * bar_length)%js.
Definition circle_penumbra : num := Fin 20.

Definition value2length (d : val) : num :=
  linear (Fin 0, max_number) (Fin 0, bar_length) d.
Definition y_scale (index : nat) : num :=
  linear (Fin 0, number_of_bars) (Fin 0, barplot_width) (Num (of_nat index)).
Definition translate_y (d : val) (index : nat) : num :=
  (total_width / Fin 2 + y_scale index - bar_width)%js.
Definition translate_x (d : val) (i : nat) : transform :=
  translate (left_origin + of_nat i * bar_width)%js (Fin 0).

(** The fill of a missing-data rectangle:
    [if (sideData[i] == 0) empty_color else "transparent"]. *)
Definition gray_fill (sideData : list val) (i : nat) : string :=
  if eq_zero (index sideData i) then empty_color else transparent.

Definition enclosing_circle : list element :=
  enter leftData (fun _ _ => Circle
    {| cx := (total_width / Fin 2)%js; cy := (total_width / Fin 2)%js;
       r := (total_width / Fin 2)%js;
       circle_stroke := "#ffffff"; circle_stroke_width := circle_penumbra;
       circle_fill := background_color |}).

Definition left_gray : list element :=
  enter leftData (fun d i => Rect
    {| rect_transform := None;
       x := Some (Fin 0); y := translate_y d i;
       width := bar_length; height := bar_width;
       rect_stroke := None;
       fill := gray_fill leftData i; class := Some "gray" |}).

Definition left_bars : list element :=
  enter leftData (fun d i => Rect
    {| rect_transform := None;
       x := Some (left_origin - value2length d)%js; y := translate_y d i;
       width := value2length d; height := (bar_width - Fin 1)%js;
       rect_stroke := None;
       fill := color_at leftColors i; class := Some "left" |}).

Definition right_gray : list element :=
  enter rightData (fun d i => Rect
    {| rect_transform := None;
       x := Some (left_origin + barplot_width)%js; y := translate_y d i;
       width := bar_length; height := bar_width;
       rect_stroke := None;
       fill := gray_fill rightData i; class := Some "gray" |}).

Definition right_bars : list element :=
  enter rightData (fun d i => Rect
    {| rect_transform := None;
       x := Some (left_origin + barplot_width)%js; y := translate_y d i;
       width := value2length d; height := (bar_width - Fin 1)%js;
       rect_stroke := None;
       fill := color_at rightColors i; class := Some "right" |}).

Definition up_gray : list element :=
  enter upData (fun d i => Rect
    {| rect_transform := Some (translate_x d i);
       x := None; y := Fin 0;
       width := bar_width; height := bar_length;
       rect_stroke := None;
       fill := gray_fill upData i; class := Some "gray" |}).

Definition up_bars : list element :=
  enter upData (fun d i => Rect
    {| rect_transform := Some (translate_x d i);
       x := None;
       y := (total_width / Fin 2 - value2length d - bar_width)%js;
       width := (bar_width - Fin 1)%js; height := value2length d;
       rect_stroke := None;
       fill := color_at upColors i; class := Some "up" |}).

Definition down_gray : list element :=
  enter downData (fun d i => Rect
    {| rect_transform := Some (translate_x d i);
       x := None; y := (total_width / Fin 2 + bar_width)%js;
       width := bar_width; height := bar_length;
       rect_stroke := None;
       fill := gray_fill downData i; class := Some "gray" |}).

Definition down_bars : list element :=
  enter downData (fun d i => Rect
    {| rect_transform := Some (translate_x d i);
       x := None; y := (total_width / Fin 2 + bar_width)%js;
       width := (bar_width - Fin 1)%js; height := value2length d;
       rect_stroke := None;
       fill := color_at downColors i; class := Some "down" |}).

Definition center_square : element :=
  Rect {| rect_transform := None;
          x := Some (total_width / Fin 2 - bar_width)%js;
          y := (total_width / Fin 2 - bar_width)%js;
          width := barplot_width; height := barplot_width;
          rect_stroke := Some ("#aaaaaa", Fin 1);
          fill := background_color; class := None |}.

Definition enclosing_square : element :=
  Rect {| rect_transform := None;
          x := Some (Fin 0); y := Fin 0;
          width := total_width; height := total_width;
          rect_stroke := Some ("#aaaaaa", Fin 1);
          fill := transparent; class := None |}.

Definition date_text : element :=
  Text {| text_x := Fin 4; text_y := Fin 16;
          text_fill := "black"; font_size := "9pt";
          content := date |}.

(** The [svg] that one call appends to the chart, with its children in
    the order in which the code appends them. *)
Definition radial_bars : svg :=
  {| svg_height := total_width; svg_width := total_width;
     children :=
       enclosing_circle
       ++ left_gray ++ left_bars
       ++ right_gray ++ right_bars
       ++ up_gray ++ up_bars
       ++ down_gray ++ down_bars
       ++ [center_square; enclosing_square; date_text] |}.

End RadialBars.

Close Scope string_scope.

(** ** Random data: [randomNumbers] and [getDataForMonth] *)

(** [parseInt] applied to a number.  The number is first converted to a
    string: decimal notation when its magnitude lies in [1e-6, 1e21),
    exponent notation [d.ddde-7] otherwise; [parseInt] then reads the digits
    up to the first character that is not one.  So a magnitude in
    [1e-6, 1e21) is truncated, and any other one is reduced to its leading
    digit.  The digits are those of the exact value. *)
Module ParseInt.

(* multiply by ten until the value reaches 1 *)
Fixpoint scale_up (fuel : nat) (a : Q) : Q :=
  match fuel with
  | O => a
  | S fuel' => if Qle_bool 1 a then a else scale_up fuel' (a * 10)
  end.

(* divide by ten until the value is below 10 *)
Fixpoint scale_down (fuel : nat) (a : Q) : Q :=
  match fuel with
  | O => a
  | S fuel' => if Qltb a 10 then a else scale_down fuel' (a / 10)
  end.

Definition bits (z : Z) : nat := Z.to_nat (Z.log2_up z) + 1.

(** The first significant decimal digit of [a > 0]. *)
Definition leading_digit (a : Q) : Z :=
  let b := scale_up (bits (Zpos (Qden a))) a in
  Qfloor (scale_down (bits (Qnum b)) b).

Definition decimal_notation (a : Q) : bool :=
  Qle_bool (1 / 1000000) a && Qltb a (inject_Z (10 ^ 21)).

Definition magnitude (a : Q) : Z :=
  if decimal_notation a then Qfloor a else leading_digit a.

Definition parseInt (n : num) : num :=
  match n with
  | Fin q =>
      if Qeq_bool q 0 then Fin 0
      else if Qltb q 0 then Fin (inject_Z (- magnitude (- q)))
      else Fin (inject_Z (magnitude q))
  | PInf | NInf | NaN => NaN
  end.

End ParseInt.

Definition parseInt := ParseInt.parseInt.

(** Computations that call [Math.random()]: the state is the number of
    draws made so far, [random k] the value of the draw number [k]. *)
Section Random.

Variable random : nat -> Q.

Definition draws (A : Type) : Type := nat -> A * nat.

Definition ret {A : Type} (a : A) : draws A := fun k => (a, k).

Definition bind {A B : Type} (c : draws A) (f : A -> draws B) : draws B :=
  fun k => let (a, k') := c k in f a k'.

Definition Math_random : draws num := fun k => (Fin (random k), S k).

Notation "v <- c ;; f" := (bind c (fun v => f))
  (at level 61, c at next level, right associativity).

(** The loop [for (i = ...; i < number_of_values; i++) numbers.push(...)],
    with [remaining] iterations to go. *)
Fixpoint randomNumbers_loop (remaining : nat) (max_number : num)
    (numbers : list val) : draws (list val) :=
  match remaining with
  | O => ret numbers
  | S remaining' =>
      u <- Math_random ;;
      randomNumbers_loop remaining' max_number
        (numbers ++ [Num (parseInt (u * max_number)%js)])
  end.

Definition randomNumbers (number_of_values : nat) (max_number : num)
  : draws (list val) :=
  randomNumbers_loop number_of_values max_number [].

Fixpoint getDataForMonth_loop (remaining : nat) (number_of_values : nat)
    (max_number : num) (randomData : list (list val))
  : draws (list (list val)) :=
  match remaining with
  | O => ret randomData
  | S remaining' =>
      numbers <- randomNumbers number_of_values max_number ;;
      getDataForMonth_loop remaining' number_of_values max_number
        (randomData ++ [numbers])
  end.

Definition getDataForMonth (number_of_values : nat) (max_number : num)
  : draws (list (list val)) :=
  getDataForMonth_loop 35 number_of_values max_number [].

End Random.

(** ** The grid traversal: [drawGraphsForMonthlyData] *)

(** A call either completes or throws the [TypeError] of reading an entry
    of [undefined]. *)
Inductive outcome (A : Type) : Type :=
| Done (a : A)
| TypeError.
Arguments Done {A} a.
Arguments TypeError {A}.

(** [for (i = 0; i < n; i++) body], the loop body acting on the chart. *)
Definition for_range {S : Type} (n : nat) (body : nat -> S -> outcome S)
    (s : S) : outcome S :=
  fold_left
    (fun acc i =>
       match acc with Done s' => body i s' | TypeError => TypeError end)
    (seq 0 n) (Done s).

Definition dates : list val :=
  map (fun d => Num (Fin (inject_Z d)))
    [27;3;10;17;24;28;4;11;18;25;29;5;12;19;26;30;6;13;20;27;31;7;14;21;28;
     1;8;15;22;29;2;9;16;23;30]%Z.

(** The chart is the list of the [svg] elements appended to the chart
    element of the page. *)
Definition chart : Type := list svg.

(** The loop body [date = dates[j*5 + i]; radial_bars(data[i*7 + j], ...)]:
    [radial_bars] reads [data[0]] of its first argument, which throws when
    [data[i*7 + j]] is [undefined]. *)
Definition draw_cell (data : list (list val)) (number_of_bars max_number : num)
    (shade : val) (i j : nat) (c : chart) : outcome chart :=
  let date := index dates (j * 5 + i) in
  match nth_error data (i * 7 + j) with
  | Some vector =>
      Done (c ++ [radial_bars vector number_of_bars max_number date shade])
  | None => TypeError
  end.

Definition draw_grid (data : list (list val)) (number_of_bars max_number : num)
    (shade : val) (c : chart) : outcome chart :=
  for_range 5 (fun i =>
    for_range 7
      (fun j => draw_cell data number_of_bars max_number shade i j)) c.

Definition drawGraphsForMonthlyData (random : nat -> Q) (c : chart)
  : draws (outcome chart) :=
  let number_of_sides := 4%nat in
  let number_of_bars := 2%nat in
  let max_number := Fin 20 in
  bind (getDataForMonth random (number_of_sides * number_of_bars) max_number)
    (fun data =>
       let shade := Num (Fin 0) in
       ret (draw_grid data (of_nat number_of_bars) max_number shade c)).

(** ** Reading a glyph *)

Open Scope string_scope.

(** The tag of an element, with its class when it has one. *)
Definition kind (e : element) : string :=
  match e with
  | Circle _ => "circle"
  | Rect b =>
      match class b with
      | Some c => "rect." ++ c
      | None => "rect"
      end
  | Text _ => "text"
  end.

(** The [rect] elements of class [c], in document order. *)
Definition rects_with_class (c : string) (g : svg) : list rect :=
  flat_map
    (fun e =>
       match e with
       | Rect b =>
           match class b with
           | Some c' => if String.eqb c c' then [b] else []
           | None => []
           end
       | _ => []
       end)
    (children g).

Definition rects (g : svg) : list rect :=
  flat_map (fun e => match e with Rect b => [b] | _ => [] end) (children g).

Inductive direction : Type := Left | Right | Up | Down.
Inductive phase : Type := Pre | Post.

Definition direction_index (d : direction) : nat :=
  match d with Left => 0 | Right => 1 | Up => 2 | Down => 3 end.

Definition phase_index (p : phase) : nat :=
  match p with Pre => 0 | Post => 1 end.

(** The index in the vector of the value of direction [d] and phase [p]. *)
Definition slot (d : direction) (p : phase) : nat :=
  2 * direction_index d + phase_index p.

Definition direction_class (d : direction) : string :=
  match d with
  | Left => "left" | Right => "right" | Up => "up" | Down => "down"
  end.

(** The missing-data rectangle and the data bar of a direction and phase. *)
Definition placeholder (g : svg) (d : direction) (p : phase) : option rect :=
  nth_error (rects_with_class "gray" g) (slot d p).

Definition data_bar (g : svg) (d : direction) (p : phase) : option rect :=
  nth_error (rects_with_class (direction_class d) g) (phase_index p).

(** The extent of a bar along its direction, and its thickness across. *)
Definition along (d : direction) (b : rect) : num :=
  match d with
  | Left | Right => width b
  | Up | Down => height b
  end.

Definition across (d : direction) (b : rect) : num :=
  match d with
  | Left | Right => height b
  | Up | Down => width b
  end.

(** Two numbers are the same value. *)
Definition num_eq (a b : num) : Prop :=
  match a, b with
  | Fin p, Fin q => p == q
  | PInf, PInf | NInf, NInf | NaN, NaN => True
  | _, _ => False
  end.

(** The order of the elements that the comments of [radial_bars] announce,
    with the circle twice. *)
Definition glyph_order : list string :=
  ["circle"; "circle";
   "rect.gray"; "rect.gray"; "rect.left"; "rect.left";
   "rect.gray"; "rect.gray"; "rect.right"; "rect.right";
   "rect.gray"; "rect.gray"; "rect.up"; "rect.up";
   "rect.gray"; "rect.gray"; "rect.down"; "rect.down";
   "rect"; "rect"; "text"].

Close Scope string_scope.

(** The position of a rectangle: its [x] and [y] attributes, moved by its
    [transform]; an absent attribute counts for 0. *)
Definition left_edge (b : rect) : num :=
  let tx := match rect_transform b with
            | Some (translate tx _) => tx
            | None => Fin 0
            end in
  let x0 := match x b with Some v => v | None => Fin 0 end in
  (tx + x0)%js.

Definition top_edge (b : rect) : num :=
  let ty := match rect_transform b with
            | Some (translate _ ty) => ty
            | None => Fin 0
            end in
  (ty + y b)%js.

(** The rectangle lies in the square [0, side] x [0, side]. *)
Definition inside (side : num) (b : rect) : Prop :=
  JS.leb (Fin 0) (width b) = true /\ JS.leb (Fin 0) (height b) = true /\
  JS.leb (Fin 0) (left_edge b) = true /\
  JS.leb (left_edge b + width b)%js side = true /\
  JS.leb (Fin 0) (top_edge b) = true /\
  JS.leb (top_edge b + height b)%js side = true.

Definition vector (values : list Q) : list val :=
  map (fun q => Num (Fin q)) values.

(** ** Vocabulary of the statements *)

(** The vector of the scenario of the specification. *)
Definition scenario_vector : list val := vector [0; 5; 10; 20; 0; 0; 15; 3].

(** The value of the scale of domain [[0, m]] and range [[0, L]]. *)
Definition scaled (m L v : Q) : Q := 0 + (v - 0) * (L - 0) / (m - 0).

(** The eight entries that [radial_bars] reads: a missing entry is
    [undefined], an entry after the eighth is not read. *)
Definition entries_read (data : list val) : list val :=
  firstn 8 (data ++ repeat Undefined 8).

(** An integer of the half-open interval [[0, max_number)]. *)
Definition in_range (max_number : Q) (v : val) : Prop :=
  exists z : Z,
    v = Num (Fin (inject_Z z)) /\ (0 <= z)%Z /\ inject_Z z < max_number.

(** The glyph of the cell of row [i] and column [j]: its vector is
    [data[i*7 + j]], its date [dates[j*5 + i]]. *)
Definition cell_glyph (data : list (list val)) (i j : nat) : svg :=
  radial_bars (nth (i * 7 + j) data []) (Fin 2) (Fin 20)
    (index dates (j * 5 + i)) (Num (Fin 0)).

(** The glyphs of the 5 rows of 7 cells, row after row. *)
Definition grid_glyphs (data : list (list val)) : list svg :=
  flat_map (fun i => map (cell_glyph data i) (seq 0 7)) (seq 0 5).

(** ** The calendar: [isLeapYear] and [getDaysInMonth] *)

(** The integer part of a quotient, rounded toward zero. *)
Definition Qtrunc (q : Q) : Z :=
  if Qle_bool 0 q then Qfloor q else Qceiling q.

(** [a % b]: the remainder takes the sign of the dividend; it is [NaN] for
    an infinite dividend or a zero divisor. *)
Definition rem (a b : num) : num :=
  match a, b with
  | NaN, _ | _, NaN => NaN
  | (PInf | NInf), _ => NaN
  | Fin a', (PInf | NInf) => Fin a'
  | Fin a', Fin b' =>
      if Qeq_bool b' 0 then NaN
      else Fin (a' - b' * inject_Z (Qtrunc (a' / b')))
  end.

Definition isLeapYear (Year : num) : bool :=
  if (JS.eqb (rem Year (Fin 4)) (Fin 0)
      && negb (JS.eqb (rem Year (Fin 100)) (Fin 0)))
     || JS.eqb (rem Year (Fin 400)) (Fin 0)
  then true
  else false.

(** [days] stays [undefined] when no branch assigns it. *)
Definition getDaysInMonth (month year : num) : val :=
  let eq k := JS.eqb month (Fin k) in
  if eq 1 || eq 3 || eq 5 || eq 7 || eq 8 || eq 10 || eq 12
  then Num (Fin 31)
  else if eq 4 || eq 6 || eq 9 || eq 11
  then Num (Fin 30)
  else if eq 2
  then (if isLeapYear year then Num (Fin 29) else Num (Fin 28))
  else Undefined.

(** An integer as a number. *)
Definition of_Z (z : Z) : num := Fin (inject_Z z).

(** The Gregorian rule on integers. *)
Definition gregorian_leap (y : Z) : bool :=
  ((y mod 4 =? 0) && negb (y mod 100 =? 0) || (y mod 400 =? 0))%Z.

(** The number of leap years among the [n] years from [y] on. *)
Fixpoint leap_years (n : nat) (y : Z) : nat :=
  match n with
  | O => 0
  | S n' => (if isLeapYear (of_Z y) then 1 else 0) + leap_years n' (y + 1)
  end.

(** The number of days of a month, 0 when [getDaysInMonth] returns
    [undefined]. *)
Definition days_of (v : val) : Z :=
  match v with
  | Num (Fin q) => Qfloor q
  | _ => 0%Z
  end.

Definition days_in_year (year : num) : Z :=
  fold_right
    (fun month acc => (days_of (getDaysInMonth (of_Z month) year) + acc)%Z)
    0%Z [1; 2; 3; 4; 5; 6; 7; 8; 9; 10; 11; 12]%Z.

(** ** The calendar controls *)

(** What the controls do to the page besides changing the form. *)
Inductive event : Type :=
| Alert (message : string)
| SelectYear
| FocusYear.

(** The form [document.calControl] and the global [focusDay]: the month is
    a [select] with [month_options] options, the year a text field.  A
    character of the year stands for one code unit of the JavaScript
    string. *)
Record calendar : Type := {
  month_options : Z;
  selectedIndex : Z;
  year_value : string;
  focusDay : option Z;
  events : list event }.

Definition log (e : list event) (s : calendar) : calendar :=
  {| month_options := month_options s; selectedIndex := selectedIndex s;
     year_value := year_value s; focusDay := focusDay s;
     events := events s ++ e |}.

(** The assignment [month.selectedIndex = i]: an index that names no option
    deselects them all, and the index reads as -1. *)
Definition set_selectedIndex (i : Z) (s : calendar) : calendar :=
  {| month_options := month_options s;
     selectedIndex :=
       if ((0 <=? i) && (i <? month_options s))%Z then i else (-1)%Z;
     year_value := year_value s; focusDay := focusDay s;
     events := events s |}.

Definition set_year_value (v : string) (s : calendar) : calendar :=
  {| month_options := month_options s; selectedIndex := selectedIndex s;
     year_value := v; focusDay := focusDay s; events := events s |}.

Definition set_focusDay (d : Z) (s : calendar) : calendar :=
  {| month_options := month_options s; selectedIndex := selectedIndex s;
     year_value := year_value s; focusDay := Some d; events := events s |}.

(** [a < b] on numbers; false as soon as one side is [NaN]. *)
Definition num_ltb (a b : num) : bool :=
  match a, b with
  | NaN, _ | _, NaN => false
  | Fin a', Fin b' => Qltb a' b'
  | PInf, _ | _, NInf => false
  | _, _ => true
  end.

(** The reading of the clock by [new Date()]. *)
Record clock : Type := { getDate : Z; getMonth : Z; getFullYear : Z }.

(** [getYear()] is the full year minus 1900. *)
Definition getYear (now : clock) : Z := (getFullYear now - 1900)%Z.

Section Controls.

(** The conversions that JavaScript applies when [year--], [year++] and
    [year > 1000] read the text of the year field as a number, and when the
    assignment to [year.value] turns the number into text. *)
Variable StringToNumber : string -> num.
Variable NumberToString : num -> string.

(** Returns [true], or [undefined] (here [false]) after the alert. *)
Definition isFourDigitYear (year : string) (s : calendar) : bool * calendar :=
  if negb (String.length year =? 4)%nat
  then (false,
        log [Alert "Sorry, the year must be four-digits in length.";
             SelectYear; FocusYear] s)
  else (true, s).

Definition setToday (now : clock) (s : calendar) : calendar :=
  let day := getDate now in
  let month := getMonth now in
  let year := getYear now in
  let year := if (year <? 2000)%Z then (year + 1900)%Z else year in
  set_year_value (NumberToString (of_Z year))
    (set_selectedIndex month (set_focusDay day s)).

Definition selectDate (s : calendar) : calendar :=
  let year := year_value s in
  let (ok, s) := isFourDigitYear year s in
  s.

Definition setPreviousYear (s : calendar) : calendar :=
  let year := year_value s in
  let (ok, s) := isFourDigitYear year s in
  if ok then
    let year := (StringToNumber year - Fin 1)%js in
    set_year_value (NumberToString year) s
  else s.

Definition setPreviousMonth (s : calendar) : calendar :=
  let year := year_value s in
  let (ok, s) := isFourDigitYear year s in
  if ok then
    let month := selectedIndex s in
    if (month =? 0)%Z then
      let month := 11%Z in
      if num_ltb (Fin 1000) (StringToNumber year) then
        let year := (StringToNumber year - Fin 1)%js in
        set_selectedIndex month (set_year_value (NumberToString year) s)
      else set_selectedIndex month s
    else set_selectedIndex (month - 1) s
  else s.

Definition setNextMonth (s : calendar) : calendar :=
  let year := year_value s in
  let (ok, s) := isFourDigitYear year s in
  if ok then
    let month := selectedIndex s in
    if (month =? 11)%Z then
      let month := 0%Z in
      let year := (StringToNumber year + Fin 1)%js in
      set_selectedIndex month (set_year_value (NumberToString year) s)
    else set_selectedIndex (month + 1) s
  else s.

Definition setNextYear (s : calendar) : calendar :=
  let year := year_value s in
  let (ok, s) := isFourDigitYear year s in
  if ok then
    let year := (StringToNumber year + Fin 1)%js in
    set_year_value (NumberToString year) s
  else s.

End Controls.

(** The decimal writing of an integer. *)
Definition decimal (n : Z) : string := NilZero.string_of_int (Z.to_int n).

(** What the statements assume of the two conversions, for the integers
    from 0 to 2^53, which JavaScript numbers hold exactly: the decimal digits
    of the integer read as that number, and the number is written as these
    digits. *)
Definition reads_decimal (StringToNumber : string -> num) : Prop :=
  forall n : Z,
    (0 <= n <= 2 ^ 53)%Z -> StringToNumber (decimal n) = of_Z n.

Definition writes_decimal (NumberToString : num -> string) : Prop :=
  forall (q : Q) (n : Z),
    (0 <= n <= 2 ^ 53)%Z -> q == inject_Z n ->
    NumberToString (Fin q) = decimal n.

(** Conversions limited to the integers in decimal digits. *)
Definition decimal_to_number (s : string) : num :=
  match NilZero.int_of_string s with
  | Some d => of_Z (Z.of_int d)
  | None => NaN
  end.

Definition number_to_decimal (n : num) : string :=
  match n with
  | Fin q => decimal (Qfloor q)
  | PInf => "Infinity"
  | NInf => "-Infinity"
  | NaN => "NaN"
  end.

(** A page of the calendar, with the twelve months as options. *)
Definition page (month year : Z) : calendar :=
  {| month_options := 12; selectedIndex := month;
     year_value := decimal year; focusDay := None; events := [] |}.

(** ** More readings of a glyph *)

(** Where a bar starts across its direction. *)
Definition lane_start (d : direction) (b : rect) : num :=
  match d with
  | Left | Right => top_edge b
  | Up | Down => left_edge b
  end.

(** The central square of a glyph. *)
Definition central_square (g : svg) : option rect :=
  match nth_error (children g) 18 with
  | Some (Rect c) => Some c
  | _ => None
  end.

(** ** More readings of the random data *)

(** The entry made from the draw number [k]. *)
Definition entry_of_draw (random : nat -> Q) (max_number : num) (k : nat)
  : val :=
  Num (parseInt (Fin (random k) * max_number)%js).

(** A non-negative integer that is below [max_number] or at most 9. *)
Definition digit_or_in_range (max_number : Q) (v : val) : Prop :=
  exists z : Z,
    v = Num (Fin (inject_Z z)) /\ (0 <= z)%Z /\
    (inject_Z z < max_number \/ (z <= 9)%Z).

(** The glyphs of a chart all lie in their squares. *)
Definition glyphs_inside (c : chart) : Prop :=
  Forall (fun g => Forall (inside (total_width (Fin 2))) (rects g)) c.

(** * Properties *)

(** The two branches of the test on [shade] set the same colours. *)
Lemma background_color_eq (shade : val) :
  background_color shade = "#e2e2e2"%string.
Proof. unfold background_color; destruct (eq_zero shade); reflexivity. Qed.

Lemma empty_color_eq (shade : val) : empty_color shade = "#ffffff"%string.
Proof. unfold empty_color; destruct (eq_zero shade); reflexivity. Qed.

(** ** The scenario of the specification *)

(** C1: for the vector [0,5,10,20,0,0,15,3] with a maximum value of 20
    and bars of length 50, the Left-pre bar has length 0 and its placeholder
    is visible, the Left-post bar has length 12.5, the Up-pre and Up-post
    bars have length 0 and visible placeholders, the Down-pre bar has length
    37.5 and the Down-post bar has length 7.5; the placeholders of the other
    values are transparent. *)
Theorem scenario_bar_lengths (date shade : val) :
  let g := radial_bars scenario_vector (Fin 2) (Fin 20) date shade in
  bar_length = Fin 50 /\
  Forall2 num_eq (map width (rects_with_class "left" g)) [Fin 0; Fin 12.5] /\
  Forall2 num_eq (map height (rects_with_class "up" g)) [Fin 0; Fin 0] /\
  Forall2 num_eq (map height (rects_with_class "down" g))
    [Fin 37.5; Fin 7.5] /\
  map fill (rects_with_class "gray" g)
  = ["#ffffff"; "transparent";  "transparent"; "transparent";
     "#ffffff"; "#ffffff";  "transparent"; "transparent"]%string.
Proof.
  intro g; subst g.
  split; [reflexivity|].
  repeat split.
  - repeat constructor; vm_compute; reflexivity.
  - repeat constructor; vm_compute; reflexivity.
  - repeat constructor; vm_compute; reflexivity.
  - cbv - [empty_color]; rewrite !empty_color_eq; reflexivity.
Qed.

(** ** The order of the elements *)

Section Layout.

Variable data : list val.
Variables number_of_bars max_number : num.
Variables date shade : val.

Let g : svg := radial_bars data number_of_bars max_number date shade.

(** C2: whatever the vector and the configuration, the glyph holds, in
    this order: the background circle, which the data join over the two
    entries of [leftData] appends twice; for each of the four directions
    two missing-data rectangles then two data bars; the center square; the
    enclosing square; the text. *)
Theorem radial_bars_element_order : map kind (children g) = glyph_order.
Proof. reflexivity. Qed.

Lemma radial_bars_rects : List.length (rects g) = 18%nat.
Proof. reflexivity. Qed.

(** ** Missing data *)

(** C3: the placeholder of a direction and phase is a rectangle of class
    [gray] whose length is [bar_length]; it is filled with the empty colour
    when the value of that direction and phase is 0, and is transparent for
    any other value.  A value is 0 for the code's test [== 0] exactly when
    it is a number equal to 0. *)
Theorem zero_value_policy (d : direction) (p : phase) :
  let v := index data (slot d p) in
  exists b : rect,
    placeholder g d p = Some b /\
    class b = Some "gray"%string /\
    along d b = bar_length /\
    fill b = (if eq_zero v then "#ffffff" else "transparent")%string /\
    (eq_zero v = true <-> exists q : Q, v = Num (Fin q) /\ q == 0).
Proof.
  intro v.
  assert (Hz : eq_zero v = true <-> exists q : Q, v = Num (Fin q) /\ q == 0).
  { destruct v as [|[q| | |]]; simpl; split;
      try discriminate; try (intros (q' & H & _); discriminate).
    - intro H; exists q; split; [reflexivity | now apply Qeq_bool_eq].
    - intros (q' & H & H0); injection H as ->; now apply Qeq_eq_bool. }
  subst v.
  destruct d, p;
    (eexists; split; [reflexivity|]);
    (split; [reflexivity|]); (split; [reflexivity|]);
    (split; [|exact Hz]);
    cbn [fill]; unfold gray_fill; rewrite empty_color_eq; reflexivity.
Qed.

(** ** Thickness of the bars *)

(** C10: for every direction and phase the placeholder is [bar_width]
    thick and the data bar [bar_width - 1], that is 15 and 14: the data bar is
    one pixel thinner than the placeholder beneath it. *)
Theorem bar_thickness (d : direction) (p : phase) :
  exists pb db : rect,
    placeholder g d p = Some pb /\
    data_bar g d p = Some db /\
    across d pb = bar_width /\
    across d db = (bar_width - Fin 1)%js /\
    num_eq (across d pb) (Fin 15) /\ num_eq (across d db) (Fin 14).
Proof.
  destruct d, p; do 2 eexists;
    (split; [reflexivity|]); (split; [reflexivity|]);
    repeat split; reflexivity.
Qed.

End Layout.

(** ** The linear scale on finite numbers *)

Lemma Qle_bool_true (a b : Q) : a <= b -> Qle_bool a b = true.
Proof. apply Qle_bool_iff. Qed.

Lemma Qeq_bool_false (a b : Q) : ~ a == b -> Qeq_bool a b = false.
Proof.
  intro H; destruct (Qeq_bool a b) eqn:E; [|reflexivity].
  now apply Qeq_bool_eq in E.
Qed.

Lemma scaled_eq (m L v : Q) : ~ m == 0 -> scaled m L v == v * L / m.
Proof. intro H; unfold scaled; field; exact H. Qed.

Lemma linear_fin (m L v : Q) :
  ~ m == 0 ->
  linear (Fin 0, Fin m) (Fin 0, Fin L) (Num (Fin v)) = Fin (scaled m L v).
Proof.
  intro H; unfold linear, scaled; cbn [ToNumber JS.sub JS.mul JS.div JS.add].
  rewrite Qeq_bool_false; [reflexivity|].
  intro E; apply H; rewrite <- E; ring.
Qed.

Lemma scaled_monotone (m L v1 v2 : Q) :
  0 < m -> 0 <= L -> v1 <= v2 -> scaled m L v1 <= scaled m L v2.
Proof.
  intros Hm HL Hv.
  assert (Hm' : ~ m == 0) by (intro E; rewrite E in Hm; discriminate).
  rewrite !scaled_eq by exact Hm'.
  unfold Qdiv.
  apply Qmult_le_compat_r; [|apply Qlt_le_weak, Qinv_lt_0_compat, Hm].
  apply Qmult_le_compat_r; assumption.
Qed.

Lemma scaled_zero (m L : Q) : ~ m == 0 -> scaled m L 0 == 0.
Proof. intro H; rewrite scaled_eq by exact H; field; exact H. Qed.

Lemma scaled_max (m L : Q) : ~ m == 0 -> scaled m L m == L.
Proof. intro H; rewrite scaled_eq by exact H; field; exact H. Qed.

Lemma scaled_bounds (m L v : Q) :
  0 < m -> 0 <= L -> 0 <= v <= m -> 0 <= scaled m L v <= L.
Proof.
  intros Hm HL [H0 H1].
  assert (Hm' : ~ m == 0) by (intro E; rewrite E in Hm; discriminate).
  split.
  - rewrite <- (scaled_zero m L Hm') at 1.
    now apply scaled_monotone.
  - rewrite <- (scaled_max m L Hm') at 2.
    now apply scaled_monotone.
Qed.

(** C7: the scale of domain [[0, max]] and range [[0, L]], with [max > 0]
    and [L >= 0], is monotone: for [0 <= v1 < v2 <= max] the image of [v1] is
    at most the image of [v2]; and it maps 0 to 0 and [max] to [L]. *)
Theorem scale_monotone_boundaries (max L v1 v2 : Q) :
  0 < max -> 0 <= L -> 0 <= v1 -> v1 < v2 -> v2 <= max ->
  let scale := linear (Fin 0, Fin max) (Fin 0, Fin L) in
  JS.leb (scale (Num (Fin v1))) (scale (Num (Fin v2))) = true /\
  num_eq (scale (Num (Fin 0))) (Fin 0) /\
  num_eq (scale (Num (Fin max))) (Fin L).
Proof.
  intros Hm HL H1 H12 H2 scale; subst scale.
  assert (Hm' : ~ max == 0) by (intro E; rewrite E in Hm; discriminate).
  rewrite !linear_fin by exact Hm'.
  split; [|split].
  - apply Qle_bool_true, scaled_monotone; auto using Qlt_le_weak.
  - apply scaled_zero, Hm'.
  - apply scaled_max, Hm'.
Qed.

Lemma scale_monotone_boundaries_witness :
  let scale := linear (Fin 0, Fin 20) (Fin 0, Fin 50) in
  JS.leb (scale (Num (Fin 5))) (scale (Num (Fin 15))) = true /\
  num_eq (scale (Num (Fin 0))) (Fin 0) /\
  num_eq (scale (Num (Fin 20))) (Fin 50).
Proof.
  apply (scale_monotone_boundaries 20 50 5 15); reflexivity || discriminate.
Defined.

(** ** Bars inside the enclosing square *)

Lemma value2length_fin (m q : Q) :
  ~ m == 0 ->
  value2length (Fin m) (Num (Fin q)) = Fin (scaled m 50 q).
Proof. intro H; unfold value2length, bar_length; now apply linear_fin. Qed.

Lemma div_fin (a b : Q) : ~ b == 0 -> (Fin a / Fin b)%js = Fin (a / b).
Proof. intro H; unfold JS.div; now rewrite Qeq_bool_false. Qed.

Lemma leb_fin (a b : Q) : a <= b -> JS.leb (Fin a) (Fin b) = true.
Proof. apply Qle_bool_true. Qed.

(** C9: for a vector of eight values that all lie in [[0, max_number]],
    every rectangle of the glyph (placeholders, data bars, center square and
    enclosing square) lies within the square [[0, total_width]] x
    [[0, total_width]], where [total_width = number_of_bars * bar_width +
    2 * bar_length] with the two bars per side of the code. *)
Theorem bars_inside_square (values : list Q) (m : Q) (date shade : val) :
  0 < m -> List.length values = 8%nat ->
  Forall (fun q => 0 <= q <= m) values ->
  let g := radial_bars (vector values) (Fin 2) (Fin m) date shade in
  let side := total_width (Fin 2) in
  num_eq side (Fin (2 * 15 + 2 * 50)) /\ Forall (inside side) (rects g).
Proof.
  intros Hm Hlen Hall g side.
  assert (Hm' : ~ m == 0) by (intro E; rewrite E in Hm; discriminate).
  split; [subst side; vm_compute; reflexivity|].
  do 9 (destruct values as [|? values]; try discriminate Hlen).
  repeat match goal with
         | H : Forall _ (_ :: _) |- _ => inversion H; subst; clear H
         end.
  repeat match goal with
         | H : 0 <= ?q <= m |- _ =>
             pose proof (scaled_bounds m 50 q Hm ltac:(discriminate) H);
             pose proof (value2length_fin m q Hm');
             clear H
         end.
  subst g side.
  cbv [rects radial_bars children flat_map app enclosing_circle
       left_gray left_bars right_gray right_bars up_gray up_bars
       down_gray down_bars center_square enclosing_square date_text
       enter enter_from leftData rightData upData downData
       index nth vector map].
  repeat match goal with
         | H : value2length _ _ = _ |- _ => rewrite !H; clear H
         end.
  repeat apply Forall_cons; try apply Forall_nil.
  all: unfold inside, left_edge, top_edge;
    cbn [width height x y rect_transform].
  all: cbv [translate_y translate_x y_scale linear total_width barplot_width
            bar_width bar_length left_origin of_nat ToNumber
            JS.add JS.sub JS.mul].
  all: rewrite ?div_fin by (intro E; vm_compute in E; discriminate E).
  all: cbv [JS.add JS.sub JS.mul].
  all: rewrite ?div_fin by (intro E; vm_compute in E; discriminate E).
  all: cbv [JS.add JS.sub JS.mul].
  all: repeat split; apply leb_fin.
  all: repeat match goal with
              | H : 0 <= scaled ?a ?b ?c <= _ |- _ =>
                  let s := fresh "s" in
                  set (s := scaled a b c) in *; clearbody s; destruct H
              end.
  all: try lra.
  all: assert (E : (2 * 15 + 2 * 50) / 2 == 65) by reflexivity; rewrite E; lra.
Qed.

Lemma bars_inside_square_witness :
  Forall (inside (total_width (Fin 2)))
    (rects (radial_bars scenario_vector (Fin 2) (Fin 20) Undefined Undefined)).
Proof.
  apply (bars_inside_square [0; 5; 10; 20; 0; 0; 15; 3] 20 Undefined Undefined).
  - reflexivity.
  - reflexivity.
  - repeat constructor; discriminate.
Defined.

(** ** No validation of the inputs *)

(** With a maximum value of 0 the two ends of the domain of the
    value-to-length scale are equal; the layout completes all the same, and
    the glyph has its 21 elements in their order. *)
Lemma degenerate_scale_no_error :
  let g := radial_bars scenario_vector (Fin 2) (Fin 0) Undefined Undefined in
  children g <> [] /\ List.length (children g) = 21%nat /\
  map kind (children g) = glyph_order.
Proof. repeat split; discriminate. Qed.

(** C4, as the code has it: the scale is built without a check of its
    domain, and the layout does not fail.  When the maximum value is 0, so
    that the two ends of the domain of the value-to-length scale are equal,
    the glyph still has its 21 elements, in the same order as for any other
    maximum.  What such a scale returns is left open. *)
Theorem degenerate_scale_not_checked (data : list val) (number_of_bars : num)
    (m : Q) (date shade : val) :
  m == 0 ->
  let g := radial_bars data number_of_bars (Fin m) date shade in
  List.length (children g) = 21%nat /\ map kind (children g) = glyph_order.
Proof. intros _ g; split; reflexivity. Qed.

Lemma degenerate_scale_not_checked_witness :
  let g := radial_bars scenario_vector (Fin 2) (Fin 0) Undefined Undefined in
  List.length (children g) = 21%nat /\ map kind (children g) = glyph_order.
Proof.
  apply (degenerate_scale_not_checked scenario_vector (Fin 2) 0
           Undefined Undefined).
  reflexivity.
Defined.

Lemma index_entries_read (data : list val) (k : nat) :
  (k < 8)%nat -> index (entries_read data) k = index data k.
Proof.
  intro Hk; unfold entries_read, index.
  do 8 (destruct data as [|? data];
        [do 8 (destruct k as [|k]; [reflexivity|]); lia|]).
  do 8 (destruct k as [|k]; [reflexivity|]); lia.
Qed.

(** A vector of seven values is laid out in full. *)
Lemma short_vector_is_laid_out :
  let g := radial_bars (vector [0; 5; 10; 20; 0; 0; 15]) (Fin 2) (Fin 20)
             Undefined Undefined in
  List.length (children g) = 21%nat /\ children g <> [] /\
  map fill (rects_with_class "gray" g)
  = ["#ffffff"; "transparent";  "transparent"; "transparent";
     "#ffffff"; "#ffffff";  "transparent"; "transparent"]%string /\
  map height (rects_with_class "down" g) = [Fin (750 # 20); NaN].
Proof. repeat split; discriminate. Qed.

(** C6, as the code has it: the layout does not check the length of the
    vector and does not fail.  For a vector of any length the glyph has all its
    elements; it is the glyph of the eight entries read, where a missing entry
    is [undefined] and an entry after the eighth is ignored.  The data bar of
    an entry has the length that the scale gives it, which is [NaN] for
    [undefined], and [undefined] is not 0, so that its placeholder is
    transparent. *)
Theorem vector_length_not_checked (data : list val)
    (number_of_bars max_number : num) (date shade : val)
    (d : direction) (p : phase) :
  let g := radial_bars data number_of_bars max_number date shade in
  map kind (children g) = glyph_order /\
  g = radial_bars (entries_read data) number_of_bars max_number date shade /\
  (exists pb db : rect,
      placeholder g d p = Some pb /\ data_bar g d p = Some db /\
      fill pb = gray_fill shade [index data (slot d p)] 0 /\
      along d db = value2length max_number (index data (slot d p))) /\
  gray_fill shade [Undefined] 0 = "transparent"%string /\
  value2length max_number Undefined = NaN.
Proof.
  intro g; subst g.
  split; [reflexivity|].
  split.
  { unfold radial_bars, enclosing_circle, left_gray, left_bars, right_gray,
      right_bars, up_gray, up_bars, down_gray, down_bars, gray_fill,
      leftData, rightData, upData, downData.
    rewrite !index_entries_read by lia; reflexivity. }
  split.
  { destruct d, p; do 2 eexists; repeat split. }
  split; [reflexivity|].
  unfold value2length, linear; destruct max_number; reflexivity.
Qed.

(** ** The random numbers *)

Module ParseIntFacts.
Import ParseInt.

Lemma scale_up_pos (fuel : nat) (a : Q) : 0 < a -> 0 < scale_up fuel a.
Proof.
  revert a; induction fuel as [|fuel IH]; intros a Ha; simpl; [exact Ha|].
  destruct (Qle_bool 1 a); [exact Ha|].
  apply IH; lra.
Qed.

Lemma scale_down_pos (fuel : nat) (a : Q) : 0 < a -> 0 < scale_down fuel a.
Proof.
  revert a; induction fuel as [|fuel IH]; intros a Ha; simpl; [exact Ha|].
  destruct (Qltb a 10); [exact Ha|].
  apply IH. unfold Qdiv; change (/ 10) with (1 # 10); lra.
Qed.

Lemma scale_down_lt (fuel : nat) (a : Q) :
  a < inject_Z (10 * 2 ^ Z.of_nat fuel) -> scale_down fuel a < 10.
Proof.
  revert a; induction fuel as [|fuel IH]; intros a Ha; simpl scale_down.
  - exact Ha.
  - destruct (Qltb a 10) eqn:E.
    + unfold Qltb in E; apply negb_true_iff in E.
      apply Qnot_le_lt; intro H; apply Qle_bool_true in H; congruence.
    + apply IH.
      rewrite Nat2Z.inj_succ, Z.pow_succ_r in Ha by lia.
      rewrite !inject_Z_mult in Ha; rewrite inject_Z_mult.
      assert (0 < inject_Z (2 ^ Z.of_nat fuel)).
      { change 0 with (inject_Z 0); rewrite <- Zlt_Qlt.
        apply Z.pow_pos_nonneg; lia. }
      unfold Qdiv; change (/ 10) with (1 # 10).
      change (inject_Z 10) with 10 in *; change (inject_Z 2) with 2 in *.
      set (P := inject_Z (2 ^ Z.of_nat fuel)) in *; clearbody P.
      nra.
Qed.

Lemma below_bits (b : Q) :
  0 < b -> b < inject_Z (10 * 2 ^ Z.of_nat (bits (Qnum b))).
Proof.
  intro Hb.
  assert (Hn : (0 < Qnum b)%Z).
  { destruct b as [n d]; unfold Qlt in Hb; simpl in *; lia. }
  apply Qle_lt_trans with (inject_Z (Qnum b)).
  - destruct b as [n d]; unfold Qle, inject_Z; simpl in *; nia.
  - rewrite <- Zlt_Qlt.
    unfold bits; rewrite Nat2Z.inj_add, Z2Nat.id by apply Z.log2_up_nonneg.
    pose proof (Z.log2_log2_up_spec (Qnum b) Hn) as [_ Hup].
    rewrite Z.pow_add_r by (try apply Z.log2_up_nonneg; lia).
    change (2 ^ Z.of_nat 1)%Z with 2%Z; lia.
Qed.

Lemma Qfloor_digit (c : Q) : 0 < c -> c < 10 -> (0 <= Qfloor c <= 9)%Z.
Proof.
  intros H0 H10.
  pose proof (Qfloor_le c) as Hle.
  pose proof (Qlt_floor c) as Hlt.
  split.
  - assert (inject_Z 0 < inject_Z (Qfloor c + 1)) as H
        by (eapply Qlt_trans; [exact H0 | exact Hlt]).
    rewrite <- Zlt_Qlt in H; lia.
  - assert (inject_Z (Qfloor c) < inject_Z 10) as H
        by (eapply Qle_lt_trans; [exact Hle | exact H10]).
    rewrite <- Zlt_Qlt in H; lia.
Qed.

Lemma leading_digit_range (a : Q) :
  0 < a -> (0 <= leading_digit a <= 9)%Z.
Proof.
  intro Ha; unfold leading_digit.
  set (b := scale_up (bits (Z.pos (Qden a))) a).
  assert (Hb : 0 < b) by now apply scale_up_pos.
  apply Qfloor_digit.
  - now apply scale_down_pos.
  - now apply scale_down_lt, below_bits.
Qed.

(** [parseInt] of a product [u * m] with [0 <= u < 1] and [m >= 10]. *)
Lemma parseInt_product (u m : Q) :
  0 <= u < 1 -> 10 <= m ->
  exists z : Z,
    parseInt (Fin u * Fin m)%js = Fin (inject_Z z) /\
    (0 <= z)%Z /\ inject_Z z < m.
Proof.
  intros [Hu0 Hu1] Hm.
  assert (Hp0 : 0 <= u * m) by nra.
  assert (Hp1 : u * m < m) by nra.
  cbn [JS.mul]; unfold parseInt, ParseInt.parseInt.
  destruct (Qeq_bool (u * m) 0) eqn:E0.
  { exists 0%Z; repeat split; [lia | change (inject_Z 0) with 0; lra]. }
  assert (Hpos : 0 < u * m).
  { apply Qeq_bool_neq in E0. apply Qle_lteq in Hp0.
    destruct Hp0 as [H|H]; [exact H | exfalso; apply E0; now symmetry]. }
  assert (El : Qltb (u * m) 0 = false).
  { unfold Qltb; apply negb_false_iff, Qle_bool_true, Hp0. }
  rewrite El; eexists; split; [reflexivity|].
  unfold magnitude; destruct (decimal_notation (u * m)).
  - pose proof (Qfloor_le (u * m)) as Hle.
    pose proof (Qlt_floor (u * m)) as Hlt.
    split; [|lra].
    assert (inject_Z 0 < inject_Z (Qfloor (u * m) + 1)) as H
        by (eapply Qlt_trans; [exact Hpos | exact Hlt]).
    rewrite <- Zlt_Qlt in H; lia.
  - pose proof (leading_digit_range (u * m) Hpos) as [H0 H9].
    split; [exact H0|].
    apply Qle_lt_trans with (inject_Z 9); [now rewrite <- Zle_Qle|].
    change (inject_Z 9) with 9; lra.
Qed.
End ParseIntFacts.

Section RandomNumbers.

Variable random : nat -> Q.

Lemma randomNumbers_loop_length (n : nat) (max_number : num)
    (numbers : list val) (k : nat) :
  List.length (fst (randomNumbers_loop random n max_number numbers k))
  = (List.length numbers + n)%nat.
Proof.
  revert numbers k; induction n as [|n IH]; intros numbers k; simpl.
  - lia.
  - unfold bind, Math_random; rewrite IH, length_app; simpl; lia.
Qed.

(** The list has one entry per requested value. *)
Lemma randomNumbers_length (n : nat) (max_number : num) (k : nat) :
  List.length (fst (randomNumbers random n max_number k)) = n.
Proof. unfold randomNumbers; now rewrite randomNumbers_loop_length. Qed.

Hypothesis random_unit : forall k : nat, 0 <= random k < 1.

Lemma randomNumbers_loop_range (n : nat) (m : Q) (numbers : list val)
    (k : nat) :
  10 <= m -> Forall (in_range m) numbers ->
  Forall (in_range m) (fst (randomNumbers_loop random n (Fin m) numbers k)).
Proof.
  intro Hm; revert numbers k; induction n as [|n IH]; intros numbers k Hacc.
  - exact Hacc.
  - simpl; unfold bind, Math_random; apply IH.
    apply Forall_app; split; [exact Hacc|].
    constructor; [|constructor].
    destruct (ParseIntFacts.parseInt_product (random k) m (random_unit k) Hm)
      as (z & Hz & H0 & H1).
    exists z; split; [f_equal; exact Hz | auto].
Qed.

(** From a maximum of 10 on, the numbers are integers of
    [[0, max_number)]: a product below 1e-6 is reduced to its leading digit,
    which is at most 9. *)
Lemma randomNumbers_range_from_ten (n : nat) (m : Q) (k : nat) :
  10 <= m -> Forall (in_range m) (fst (randomNumbers random n (Fin m) k)).
Proof. intro Hm; now apply randomNumbers_loop_range. Qed.

End RandomNumbers.

(** C8: the random numbers are meant to be integers of [[0, max_number)].
    With [max_number = 1] and a draw of [2^-21 = 4.76837158203125e-7],
    [parseInt] reads the exponent notation of the product and returns 4,
    which is not below 1. *)
Theorem randomNumbers_out_of_range :
  let random := fun _ : nat => 1 # 2097152 in
  (forall k : nat, 0 <= random k < 1) /\
  fst (randomNumbers random 1 (Fin 1) 0%nat) = [Num (Fin 4)] /\
  ~ in_range 1 (Num (Fin 4)).
Proof.
  intro random; split; [|split].
  - intro k; split; [discriminate | reflexivity].
  - vm_compute; reflexivity.
  - intros (z & Hz & _ & Hlt).
    injection Hz as Hz; subst z.
    revert Hlt; vm_compute; discriminate.
Qed.

(** ** The grid *)

Lemma fold_append {A : Type} (body : nat -> list A -> outcome (list A))
    (f : nat -> list A) (l : list nat) :
  (forall i s, In i l -> body i s = Done (s ++ f i)) ->
  forall s : list A,
    fold_left
      (fun acc i =>
         match acc with Done s' => body i s' | TypeError => TypeError end)
      l (Done s)
    = Done (s ++ flat_map f l).
Proof.
  induction l as [|i l IH]; intros Hbody s; simpl.
  - now rewrite app_nil_r.
  - rewrite Hbody by now left.
    rewrite IH by (intros; apply Hbody; now right).
    now rewrite app_assoc.
Qed.

Lemma for_range_append {A : Type} (n : nat)
    (body : nat -> list A -> outcome (list A)) (f : nat -> list A) :
  (forall i s, (i < n)%nat -> body i s = Done (s ++ f i)) ->
  forall s : list A, for_range n body s = Done (s ++ flat_map f (seq 0 n)).
Proof.
  intros Hbody s; unfold for_range; apply fold_append.
  intros i s' Hi; apply Hbody; apply in_seq in Hi; lia.
Qed.

Lemma getDataForMonth_loop_length (random : nat -> Q) (n number_of_values : nat)
    (max_number : num) (randomData : list (list val)) (k : nat) :
  List.length
    (fst (getDataForMonth_loop random n number_of_values max_number
            randomData k))
  = (List.length randomData + n)%nat.
Proof.
  revert randomData k; induction n as [|n IH]; intros randomData k; simpl.
  - lia.
  - unfold bind.
    destruct (randomNumbers random number_of_values max_number k)
    as [numbers k'].
    rewrite IH, length_app; simpl; lia.
Qed.

Lemma getDataForMonth_length (random : nat -> Q) (number_of_values : nat)
    (max_number : num) (k : nat) :
  List.length (fst (getDataForMonth random number_of_values max_number k))
  = 35%nat.
Proof. unfold getDataForMonth; now rewrite getDataForMonth_loop_length. Qed.

Lemma draw_grid_glyphs (data : list (list val)) (c : chart) :
  List.length data = 35%nat ->
  draw_grid data (Fin 2) (Fin 20) (Num (Fin 0)) c
  = Done (c ++ grid_glyphs data).
Proof.
  intro Hlen; unfold draw_grid, grid_glyphs.
  apply for_range_append; intros i s Hi.
  rewrite (for_range_append 7 _ (fun j => [cell_glyph data i j])).
  - reflexivity.
  - intros j s' Hj; unfold draw_cell, cell_glyph.
    rewrite (nth_error_nth' data []) by lia.
    reflexivity.
Qed.

(** C5: the traversal has 5 rows and 7 columns; the cell of row [i] and
    column [j] is drawn with the date [dates[j*5 + i]] and the vector
    [data[i*7 + j]]; [radial_bars] is called once per cell, 35 times in all,
    each call appending one glyph to the chart. *)
Theorem grid_traversal (random : nat -> Q) (c : chart) (k : nat) :
  let data := fst (getDataForMonth random 8 (Fin 20) k) in
  fst (drawGraphsForMonthlyData random c k) = Done (c ++ grid_glyphs data) /\
  grid_glyphs data
  = flat_map
      (fun i =>
         map (fun j =>
                radial_bars (nth (i * 7 + j) data []) (Fin 2) (Fin 20)
                  (index dates (j * 5 + i)) (Num (Fin 0)))
           (seq 0 7))
      (seq 0 5) /\
  List.length data = 35%nat /\
  List.length (grid_glyphs data) = 35%nat.
Proof.
  intro data.
  assert (Hlen : List.length data = 35%nat) by apply getDataForMonth_length.
  split; [|split; [reflexivity | split; [exact Hlen | reflexivity]]].
  unfold drawGraphsForMonthlyData, bind, ret.
  change (4 * 2)%nat with 8%nat.
  fold data.
  destruct (getDataForMonth random 8 (Fin 20) k) as [data' k'] eqn:E.
  simpl in data; subst data; simpl fst.
  now apply draw_grid_glyphs.
Qed.

(** Read row after row, the dates are those of the calendar page: the
    array [dates] holds them column after column. *)
Lemma grid_dates_by_row :
  map (fun i => map (fun j => index dates (j * 5 + i)) (seq 0 7)) (seq 0 5)
  = map (map (fun d => Num (Fin (inject_Z d))))
      [[27; 28; 29; 30; 31; 1; 2]; [3; 4; 5; 6; 7; 8; 9];
       [10; 11; 12; 13; 14; 15; 16]; [17; 18; 19; 20; 21; 22; 23];
       [24; 25; 26; 27; 28; 29; 30]]%Z.
Proof. reflexivity. Qed.

(** ** The calendar *)

Lemma Qtrunc_quot (a : Z) (p : positive) :
  Qtrunc (inject_Z a / inject_Z (Zpos p)) = Z.quot a (Zpos p).
Proof.
  unfold Qtrunc, Qceiling.
  assert (E : forall b : Z,
             Qfloor (inject_Z b / inject_Z (Zpos p)) = (b / Zpos p)%Z).
  { intro b; unfold Qdiv, Qmult, Qinv, inject_Z, Qfloor; simpl.
    now rewrite Z.mul_1_r. }
  destruct (Qle_bool 0 (inject_Z a / inject_Z (Z.pos p))) eqn:H.
  - apply Qle_bool_iff in H.
    assert (0 <= a)%Z.
    { unfold Qle, Qdiv, Qmult, Qinv, inject_Z in H; simpl in H; lia. }
    rewrite E; symmetry; apply Z.quot_div_nonneg; lia.
  - assert (a < 0)%Z.
    { destruct (Z.lt_ge_cases a 0) as [Hlt|Hge]; [exact Hlt|].
      assert (Hq : Qle_bool 0 (inject_Z a / inject_Z (Z.pos p)) = true).
      { apply Qle_bool_iff.
        unfold Qle, Qdiv, Qmult, Qinv, inject_Z; simpl; lia. }
      congruence. }
    assert (Eo : - (inject_Z a / inject_Z (Z.pos p))
                 == inject_Z (- a) / inject_Z (Z.pos p)).
    { rewrite inject_Z_opp; field; discriminate. }
    rewrite Eo, E.
    rewrite <- (Z.opp_involutive a) at 2.
    rewrite Z.quot_opp_l by lia.
    f_equal; symmetry; apply Z.quot_div_nonneg; lia.
Qed.

Lemma rem_zero_int (a : Z) (p : positive) :
  JS.eqb (rem (of_Z a) (of_Z (Zpos p))) (Fin 0) = (Z.rem a (Zpos p) =? 0)%Z.
Proof.
  unfold rem, of_Z.
  change (Qeq_bool (inject_Z (Z.pos p)) 0) with false; cbv iota.
  rewrite Qtrunc_quot; cbn [JS.eqb].
  assert (E : inject_Z a - inject_Z (Z.pos p) * inject_Z (a ÷ Z.pos p)
              == inject_Z (Z.rem a (Z.pos p))).
  { pose proof (Z.quot_rem' a (Z.pos p)) as H.
    rewrite H at 1; rewrite inject_Z_plus, inject_Z_mult; ring. }
  rewrite (Qeqb_comp _ _ E 0 0 (Qeq_refl 0)).
  unfold Qeq_bool, inject_Z; simpl.
  rewrite Z.mul_1_r.
  destruct (Z.rem a (Z.pos p)); reflexivity.
Qed.

Lemma rem_zero_mod (a : Z) (p : positive) :
  (Z.rem a (Zpos p) =? 0)%Z = (a mod Zpos p =? 0)%Z.
Proof.
  destruct (Z.eqb_spec (Z.rem a (Z.pos p)) 0) as [H|H];
    destruct (Z.eqb_spec (a mod Z.pos p) 0) as [H'|H']; try reflexivity.
  - exfalso; apply H'.
    apply Z.rem_divide in H; [|lia]. apply Z.mod_divide; [lia | exact H].
  - exfalso; apply H.
    apply Z.mod_divide in H'; [|lia]. apply Z.rem_divide; [lia | exact H'].
Qed.

(** On an integer year, negative ones included, [isLeapYear] is the
    Gregorian rule. *)
Lemma isLeapYear_int (y : Z) : isLeapYear (of_Z y) = gregorian_leap y.
Proof.
  unfold isLeapYear, gregorian_leap.
  change (Fin 4) with (of_Z 4); change (Fin 100) with (of_Z 100);
    change (Fin 400) with (of_Z 400).
  rewrite !rem_zero_int, !rem_zero_mod.
  destruct (_ || _)%bool; reflexivity.
Qed.

Lemma isLeapYear_comp (q q' : Q) :
  q == q' -> isLeapYear (Fin q) = isLeapYear (Fin q').
Proof.
  intro Hq; unfold isLeapYear, rem.
  change (Qeq_bool 4 0) with false; change (Qeq_bool 100 0) with false;
    change (Qeq_bool 400 0) with false; cbv iota; cbn [JS.eqb].
  assert (Et : forall k : Q, Qtrunc (q / k) = Qtrunc (q' / k)).
  { intro k; unfold Qtrunc.
    assert (E : q / k == q' / k) by (rewrite Hq; reflexivity).
    now rewrite (Qfloor_comp _ _ E), (Qceiling_comp _ _ E),
      (Qleb_comp 0 0 (Qeq_refl 0) _ _ E). }
  rewrite !Et.
  now rewrite !(Qeqb_comp _ _ (Qminus_comp _ _ Hq _ _ (Qeq_refl _))
                  0 0 (Qeq_refl 0)).
Qed.

Lemma zero_remainder_integer (q : Q) (k : positive) :
  JS.eqb (rem (Fin q) (Fin (inject_Z (Zpos k)))) (Fin 0) = true ->
  exists y : Z, q == inject_Z y.
Proof.
  intro Hk; unfold rem in Hk.
  change (Qeq_bool (inject_Z (Z.pos k)) 0) with false in Hk; cbv iota in Hk.
  cbn [JS.eqb] in Hk; apply Qeq_bool_eq in Hk.
  exists (Z.pos k * Qtrunc (q / inject_Z (Z.pos k)))%Z.
  rewrite inject_Z_mult; lra.
Qed.

(** X9: [isLeapYear] is true exactly on the integers that the Gregorian
    rule makes leap years (divisible by 4 and not by 100, or divisible by
    400), negative years included; it is false on [NaN], on the infinities
    and on every number with a fractional part. *)
Theorem leap_year_iff_gregorian (Year : num) :
  isLeapYear Year = true <->
  exists (q : Q) (y : Z),
    Year = Fin q /\ q == inject_Z y /\ gregorian_leap y = true.
Proof.
  split.
  - intro H.
    destruct Year as [q| | |]; try discriminate H.
    assert (exists y : Z, q == inject_Z y) as [y Hy].
    { unfold isLeapYear in H.
      destruct (JS.eqb (rem (Fin q) (Fin 4)) (Fin 0)) eqn:E4;
        [exact (zero_remainder_integer q 4%positive E4)|].
      destruct (JS.eqb (rem (Fin q) (Fin 400)) (Fin 0)) eqn:E400;
        [exact (zero_remainder_integer q 400%positive E400)|].
      discriminate H. }
    exists q, y; split; [reflexivity | split; [exact Hy|]].
    rewrite <- isLeapYear_int, <- H.
    symmetry; apply (isLeapYear_comp q (inject_Z y) Hy).
  - intros (q & y & -> & Hq & Hg).
    rewrite (isLeapYear_comp q (inject_Z y) Hq).
    now rewrite <- Hg, <- isLeapYear_int.
Qed.

Lemma gregorian_leap_period (y : Z) :
  gregorian_leap (y + 400) = gregorian_leap y.
Proof.
  unfold gregorian_leap.
  replace ((y + 400) mod 4)%Z with (y mod 4)%Z
    by (replace (y + 400)%Z with (y + 100 * 4)%Z by lia;
        now rewrite Z.mod_add).
  replace ((y + 400) mod 100)%Z with (y mod 100)%Z
    by (replace (y + 400)%Z with (y + 4 * 100)%Z by lia;
        now rewrite Z.mod_add).
  replace ((y + 400) mod 400)%Z with (y mod 400)%Z
    by (replace (y + 400)%Z with (y + 1 * 400)%Z by lia;
        now rewrite Z.mod_add).
  reflexivity.
Qed.

Lemma isLeapYear_period (y : Z) :
  isLeapYear (of_Z (y + 400)) = isLeapYear (of_Z y).
Proof. rewrite !isLeapYear_int; apply gregorian_leap_period. Qed.

Lemma leap_years_snoc (n : nat) (y : Z) :
  leap_years (S n) y
  = (leap_years n y
     + (if isLeapYear (of_Z (y + Z.of_nat n)) then 1 else 0))%nat.
Proof.
  revert y; induction n as [|n IH]; intro y.
  - simpl; rewrite Z.add_0_r; lia.
  - change (leap_years (S (S n)) y)
      with ((if isLeapYear (of_Z y) then 1 else 0)
            + leap_years (S n) (y + 1))%nat.
    rewrite IH.
    change (leap_years (S n) y)
      with ((if isLeapYear (of_Z y) then 1 else 0)
            + leap_years n (y + 1))%nat.
    replace (y + 1 + Z.of_nat n)%Z with (y + Z.of_nat (S n))%Z by lia.
    lia.
Qed.

Lemma leap_years_shift (y : Z) :
  leap_years 400 (y + 1) = leap_years 400 y.
Proof.
  pose proof (leap_years_snoc 399 (y + 1)) as Hs.
  replace (y + 1 + Z.of_nat 399)%Z with (y + 400)%Z in Hs by lia.
  rewrite isLeapYear_period in Hs.
  rewrite Hs.
  change (leap_years 400 y)
    with ((if isLeapYear (of_Z y) then 1 else 0)
          + leap_years 399 (y + 1))%nat.
  lia.
Qed.

Lemma leap_years_from_zero : leap_years 400 0 = 97%nat.
Proof. vm_compute; reflexivity. Qed.

Lemma leap_years_400 (y : Z) : leap_years 400 y = 97%nat.
Proof.
  assert (Hup : forall n : nat, leap_years 400 (Z.of_nat n) = 97%nat).
  { induction n as [|n IH]; [exact leap_years_from_zero|].
    rewrite Nat2Z.inj_succ; unfold Z.succ; now rewrite leap_years_shift. }
  assert (Hdown : forall n : nat, leap_years 400 (- Z.of_nat n) = 97%nat).
  { induction n as [|n IH]; [exact leap_years_from_zero|].
    rewrite <- (leap_years_shift (- Z.of_nat (S n))).
    replace (- Z.of_nat (S n) + 1)%Z with (- Z.of_nat n)%Z by lia.
    exact IH. }
  destruct (Z.le_ge_cases 0 y) as [H|H].
  - rewrite <- (Z2Nat.id y H); apply Hup.
  - replace y with (- Z.of_nat (Z.to_nat (- y)))%Z by lia; apply Hdown.
Qed.

(** X10: the leap years repeat every 400 years, before the year 0 as
    well, and any 400 consecutive years hold exactly 97 of them. *)
Theorem leap_years_per_cycle (y : Z) :
  isLeapYear (of_Z (y + 400)) = isLeapYear (of_Z y) /\
  leap_years 400 y = 97%nat.
Proof. split; [apply isLeapYear_period | apply leap_years_400]. Qed.

(** ** Days of the months *)

Lemma getDaysInMonth_february (year : num) :
  getDaysInMonth (Fin 2) year
  = if isLeapYear year then Num (Fin 29) else Num (Fin 28).
Proof. reflexivity. Qed.

(** X12: the twelve months add up to 366 days in a leap year and to 365 in any
    other year, whatever number the year is. *)
Theorem days_in_year_total (year : num) :
  days_in_year year = if isLeapYear year then 366%Z else 365%Z.
Proof.
  unfold days_in_year; cbn [fold_right].
  change (getDaysInMonth (of_Z 2) year) with (getDaysInMonth (Fin 2) year).
  rewrite getDaysInMonth_february.
  destruct (isLeapYear year); reflexivity.
Qed.

(** X11: [getDaysInMonth] returns a number of days from 28 to 31 for the months
    1 to 12, and [undefined] for any other month. *)
Theorem getDaysInMonth_range (month year : num) :
  (exists k d : Z,
      (1 <= k <= 12)%Z /\ JS.eqb month (of_Z k) = true /\
      getDaysInMonth month year = Num (of_Z d) /\ (28 <= d <= 31)%Z)
  \/ ((forall k : Z, (1 <= k <= 12)%Z -> JS.eqb month (of_Z k) = false) /\
      getDaysInMonth month year = Undefined).
Proof.
  unfold getDaysInMonth.
  destruct (JS.eqb month (Fin 1)) eqn:E1;
    [left; exists 1%Z, 31%Z; repeat split; (lia || exact E1)|].
  destruct (JS.eqb month (Fin 3)) eqn:E3;
    [left; exists 3%Z, 31%Z; repeat split; (lia || exact E3)|].
  destruct (JS.eqb month (Fin 5)) eqn:E5;
    [left; exists 5%Z, 31%Z; repeat split; (lia || exact E5)|].
  destruct (JS.eqb month (Fin 7)) eqn:E7;
    [left; exists 7%Z, 31%Z; repeat split; (lia || exact E7)|].
  destruct (JS.eqb month (Fin 8)) eqn:E8;
    [left; exists 8%Z, 31%Z; repeat split; (lia || exact E8)|].
  destruct (JS.eqb month (Fin 10)) eqn:E10;
    [left; exists 10%Z, 31%Z; repeat split; (lia || exact E10)|].
  destruct (JS.eqb month (Fin 12)) eqn:E12;
    [left; exists 12%Z, 31%Z; repeat split; (lia || exact E12)|].
  destruct (JS.eqb month (Fin 4)) eqn:E4;
    [left; exists 4%Z, 30%Z; repeat split; (lia || exact E4)|].
  destruct (JS.eqb month (Fin 6)) eqn:E6;
    [left; exists 6%Z, 30%Z; repeat split; (lia || exact E6)|].
  destruct (JS.eqb month (Fin 9)) eqn:E9;
    [left; exists 9%Z, 30%Z; repeat split; (lia || exact E9)|].
  destruct (JS.eqb month (Fin 11)) eqn:E11;
    [left; exists 11%Z, 30%Z; repeat split; (lia || exact E11)|].
  cbn [orb].
  destruct (JS.eqb month (Fin 2)) eqn:E2.
  - left; destruct (isLeapYear year);
      [exists 2%Z, 29%Z | exists 2%Z, 28%Z]; repeat split; (lia || exact E2).
  - right; split; [|reflexivity].
    intros k Hk.
    assert (k = 1 \/ k = 2 \/ k = 3 \/ k = 4 \/ k = 5 \/ k = 6 \/ k = 7 \/
            k = 8 \/ k = 9 \/ k = 10 \/ k = 11 \/ k = 12)%Z as Hc by lia.
    repeat (destruct Hc as [->|Hc]; [assumption|]); subst k; assumption.
Qed.

(** ** More on the glyph *)

(** X1: the argument [shade] has no effect: the two branches of its test set
    the same colours. *)
Theorem shade_has_no_effect (data : list val) (number_of_bars max_number : num)
    (date shade shade' : val) :
  radial_bars data number_of_bars max_number date shade
  = radial_bars data number_of_bars max_number date shade'.
Proof.
  unfold radial_bars, enclosing_circle, left_gray, right_gray, up_gray,
    down_gray, center_square, gray_fill.
  now rewrite !background_color_eq, !empty_color_eq.
Qed.

(** X4: the two bars of a direction lie side by side along the side of the
    central square: the square spans 50 to 80 in both axes, the first bar and
    its placeholder start at 50 across the direction, the second ones at
    65, whatever the vector and the maximum. *)
Theorem bar_lanes (data : list val) (max_number : num) (date shade : val)
    (d : direction) (p : phase) :
  let g := radial_bars data (Fin 2) max_number date shade in
  let start := Fin (50 + 15 * inject_Z (Z.of_nat (phase_index p))) in
  exists pb db c : rect,
    placeholder g d p = Some pb /\ data_bar g d p = Some db /\
    central_square g = Some c /\
    num_eq (lane_start d pb) start /\ num_eq (lane_start d db) start /\
    num_eq (left_edge c) (Fin 50) /\ num_eq (top_edge c) (Fin 50) /\
    num_eq (width c) (Fin 30) /\ num_eq (height c) (Fin 30).
Proof.
  intros g start; subst g start.
  destruct d, p; do 3 eexists;
    (split; [reflexivity|]); (split; [reflexivity|]);
    (split; [reflexivity|]);
    unfold lane_start, left_edge, top_edge;
    cbn [width height x y rect_transform];
    repeat split; vm_compute; reflexivity.
Qed.

(** ** More on the random data *)

Section Draws.

Variable random : nat -> Q.

Lemma randomNumbers_loop_draws (n : nat) (max_number : num)
    (numbers : list val) (k : nat) :
  randomNumbers_loop random n max_number numbers k
  = (numbers ++ map (fun i => entry_of_draw random max_number (k + i))
                  (seq 0 n),
     (k + n)%nat).
Proof.
  revert numbers k; induction n as [|n IH]; intros numbers k.
  - simpl; now rewrite app_nil_r, Nat.add_0_r.
  - cbn [randomNumbers_loop]; unfold bind, Math_random.
    rewrite IH, <- app_assoc; cbn [seq map app].
    rewrite <- seq_shift, map_map, Nat.add_0_r.
    f_equal; [|lia].
    do 2 f_equal; apply map_ext; intro i; f_equal; lia.
Qed.

Lemma randomNumbers_eq (n : nat) (max_number : num) (k : nat) :
  randomNumbers random n max_number k
  = (map (fun i => entry_of_draw random max_number (k + i)) (seq 0 n),
     (k + n)%nat).
Proof. unfold randomNumbers; now rewrite randomNumbers_loop_draws. Qed.

(** X5: [randomNumbers] makes its entries from consecutive draws, in
    order: the entry [i] comes from the draw number [k + i] when [k] draws
    were made before, and [number_of_values] draws are used. *)
Theorem randomNumbers_draws (n : nat) (max_number : num) (k : nat) :
  randomNumbers random n max_number k
  = (map (fun i => entry_of_draw random max_number (k + i)) (seq 0 n),
     (k + n)%nat).
Proof. apply randomNumbers_eq. Qed.

Lemma getDataForMonth_loop_draws (c n : nat) (max_number : num)
    (randomData : list (list val)) (k : nat) :
  getDataForMonth_loop random c n max_number randomData k
  = (randomData
     ++ map (fun cell =>
               map (fun i => entry_of_draw random max_number
                               (k + cell * n + i)) (seq 0 n))
          (seq 0 c),
     (k + c * n)%nat).
Proof.
  revert randomData k; induction c as [|c IH]; intros randomData k.
  - simpl; now rewrite app_nil_r, Nat.add_0_r.
  - cbn [getDataForMonth_loop]; unfold bind.
    rewrite randomNumbers_eq, IH, <- app_assoc; cbn [seq map app].
    rewrite <- seq_shift, map_map.
    f_equal; [|lia].
    f_equal; f_equal.
    + apply map_ext; intro i; f_equal; lia.
    + apply map_ext; intro cell; apply map_ext; intro i; f_equal; lia.
Qed.

(** X6: [getDataForMonth] returns 35 vectors of [number_of_values]
    entries;
    the entry [i] of the vector [cell] comes from the draw number
    [k + cell * number_of_values + i], so that every draw is used once, in
    order, [35 * number_of_values] draws in all. *)
Theorem getDataForMonth_draws (n : nat) (max_number : num) (k : nat) :
  getDataForMonth random n max_number k
  = (map (fun cell =>
            map (fun i => entry_of_draw random max_number (k + cell * n + i))
              (seq 0 n))
       (seq 0 35),
     (k + 35 * n)%nat).
Proof. unfold getDataForMonth; now rewrite getDataForMonth_loop_draws. Qed.

Hypothesis random_unit : forall k : nat, 0 <= random k < 1.

Lemma entry_digit_or_in_range (m : Q) (k : nat) :
  0 < m -> digit_or_in_range m (entry_of_draw random (Fin m) k).
Proof.
  intro Hm; destruct (random_unit k) as [Hu0 Hu1].
  set (u := random k) in *.
  assert (Hp0 : 0 <= u * m) by nra.
  assert (Hp1 : u * m < m) by nra.
  unfold entry_of_draw, digit_or_in_range; fold u.
  cbn [JS.mul]; unfold parseInt, ParseInt.parseInt.
  destruct (Qeq_bool (u * m) 0) eqn:E0.
  { exists 0%Z; repeat split; [lia | right; lia]. }
  assert (Hpos : 0 < u * m).
  { apply Qeq_bool_neq in E0; apply Qle_lteq in Hp0.
    destruct Hp0 as [H|H]; [exact H | exfalso; apply E0; now symmetry]. }
  assert (El : Qltb (u * m) 0 = false).
  { unfold Qltb; apply negb_false_iff, Qle_bool_true, Hp0. }
  rewrite El; eexists; split; [reflexivity|].
  unfold ParseInt.magnitude; destruct (ParseInt.decimal_notation (u * m)).
  - pose proof (Qfloor_le (u * m)) as Hle.
    pose proof (Qlt_floor (u * m)) as Hlt.
    split; [|left; lra].
    assert (inject_Z 0 < inject_Z (Qfloor (u * m) + 1)) as H
        by (eapply Qlt_trans; [exact Hpos | exact Hlt]).
    rewrite <- Zlt_Qlt in H; lia.
  - pose proof (ParseIntFacts.leading_digit_range (u * m) Hpos) as [H0 H9].
    split; [exact H0 | right; exact H9].
Qed.

(** X7: for any positive maximum, every random number is a non-negative
    integer
    that is below the maximum or at most 9: the only numbers out of range
    are the leading digits that [parseInt] reads off a product written in
    exponent notation. *)
Theorem randomNumbers_digit_or_in_range (n : nat) (m : Q) (k : nat) :
  0 < m ->
  Forall (digit_or_in_range m) (fst (randomNumbers random n (Fin m) k)).
Proof.
  intro Hm; rewrite randomNumbers_eq; cbn [fst].
  apply Forall_forall; intros v Hv; apply in_map_iff in Hv.
  destruct Hv as (i & <- & _); now apply entry_digit_or_in_range.
Qed.

End Draws.

(** ** The glyphs of the grid *)

Lemma glyph_inside (data : list val) (m : Q) (date shade : val) :
  0 < m -> List.length data = 8%nat ->
  Forall (fun v => exists q : Q, v = Num (Fin q) /\ 0 <= q <= m) data ->
  Forall (inside (total_width (Fin 2)))
    (rects (radial_bars data (Fin 2) (Fin m) date shade)).
Proof.
  intros Hm Hlen Hall.
  assert (Hm' : ~ m == 0) by (intro E; rewrite E in Hm; discriminate).
  do 9 (destruct data as [|? data]; try discriminate Hlen).
  repeat match goal with
         | H : Forall _ (_ :: _) |- _ => inversion H; subst; clear H
         end.
  repeat match goal with
         | H : exists q : Q, _ = Num (Fin q) /\ _ |- _ =>
             let q := fresh "q" in
             let Hq := fresh "Hq" in
             destruct H as (q & -> & Hq);
             pose proof (scaled_bounds m 50 q Hm ltac:(discriminate) Hq);
             pose proof (value2length_fin m q Hm');
             clear Hq
         end.
  cbv [rects radial_bars children flat_map app enclosing_circle
       left_gray left_bars right_gray right_bars up_gray up_bars
       down_gray down_bars center_square enclosing_square date_text
       enter enter_from leftData rightData upData downData index nth].
  repeat match goal with
         | H : value2length _ _ = _ |- _ => rewrite !H; clear H
         end.
  repeat apply Forall_cons; try apply Forall_nil.
  all: unfold inside, left_edge, top_edge;
    cbn [width height x y rect_transform].
  all: cbv [translate_y translate_x y_scale linear total_width barplot_width
            bar_width bar_length left_origin of_nat ToNumber
            JS.add JS.sub JS.mul].
  all: rewrite ?div_fin by (intro E; vm_compute in E; discriminate E).
  all: cbv [JS.add JS.sub JS.mul].
  all: rewrite ?div_fin by (intro E; vm_compute in E; discriminate E).
  all: cbv [JS.add JS.sub JS.mul].
  all: repeat split; apply leb_fin.
  all: repeat match goal with
              | H : 0 <= scaled ?a ?b ?c <= _ |- _ =>
                  let s := fresh "s" in
                  set (s := scaled a b c) in *; clearbody s; destruct H
              end.
  all: try lra.
  all: assert (E : (2 * 15 + 2 * 50) / 2 == 65) by reflexivity; rewrite E; lra.
Qed.

Lemma digit_below_twenty (v : val) :
  digit_or_in_range 20 v -> exists q : Q, v = Num (Fin q) /\ 0 <= q <= 20.
Proof.
  intros (z & -> & H0 & H1).
  exists (inject_Z z); split; [reflexivity|].
  assert (z < 20)%Z as Hz.
  { destruct H1 as [H1|H1]; [|lia].
    change 20 with (inject_Z 20) in H1; now rewrite <- Zlt_Qlt in H1. }
  split.
  - change 0 with (inject_Z 0); rewrite <- Zle_Qle; lia.
  - change 20 with (inject_Z 20); rewrite <- Zle_Qle; lia.
Qed.

(** X8: whatever the draws, the page is drawn without error, and each of
    the 35
    glyphs it adds to the chart lies within its square: the random vectors
    have eight entries between 0 and the maximum of 20 that the layout is
    given. *)
Theorem grid_glyphs_inside_squares (random : nat -> Q) (c : chart) (k : nat) :
  (forall i : nat, 0 <= random i < 1) -> glyphs_inside c ->
  exists c' : chart,
    drawGraphsForMonthlyData random c k = (Done c', (k + 280)%nat) /\
    glyphs_inside c' /\
    List.length c' = (List.length c + 35)%nat.
Proof.
  intros Hrandom Hc.
  unfold drawGraphsForMonthlyData, bind, ret.
  change (4 * 2)%nat with 8%nat.
  unfold getDataForMonth; rewrite getDataForMonth_loop_draws; cbn [app].
  set (data := map _ (seq 0 35)).
  assert (Hlen : List.length data = 35%nat)
    by (subst data; now rewrite length_map, length_seq).
  change (of_nat 2) with (Fin 2).
  rewrite (draw_grid_glyphs data c Hlen).
  exists (c ++ grid_glyphs data); split; [reflexivity|].
  split; [|rewrite length_app; f_equal; reflexivity].
  unfold glyphs_inside; apply Forall_app; split; [exact Hc|].
  unfold grid_glyphs.
  apply Forall_forall; intros g Hg.
  apply in_flat_map in Hg; destruct Hg as (i & Hi & Hg).
  apply in_map_iff in Hg; destruct Hg as (j & <- & Hj).
  apply in_seq in Hi, Hj.
  unfold cell_glyph.
  assert (Hcell : (i * 7 + j < 35)%nat) by lia.
  subst data.
  match goal with
  | |- context [nth ?n (map ?f ?l) []] =>
      rewrite (nth_indep (map f l) [] (f 0%nat))
        by (rewrite length_map, length_seq; exact Hcell);
      rewrite (map_nth f l 0%nat n)
  end.
  apply glyph_inside.
  - reflexivity.
  - now rewrite length_map, length_seq.
  - apply Forall_forall; intros v Hv; apply in_map_iff in Hv.
    destruct Hv as (e & <- & _).
    apply digit_below_twenty, entry_digit_or_in_range;
      [exact Hrandom | reflexivity].
Qed.

Lemma randomNumbers_digit_or_in_range_witness :
  Forall (digit_or_in_range 1)
    (fst (randomNumbers (fun _ => 1 # 2097152) 1 (Fin 1) 0%nat)).
Proof.
  apply (randomNumbers_digit_or_in_range (fun _ => 1 # 2097152)).
  - intro k; split; [discriminate | reflexivity].
  - reflexivity.
Defined.

Lemma grid_glyphs_inside_squares_witness :
  exists c' : chart,
    drawGraphsForMonthlyData (fun _ => 1 # 2) [] 0%nat = (Done c', 280%nat) /\
    glyphs_inside c' /\ List.length c' = 35%nat.
Proof.
  apply (grid_glyphs_inside_squares (fun _ => 1 # 2) [] 0%nat).
  - intro k; split; [discriminate | reflexivity].
  - constructor.
Defined.

(** ** The calendar controls *)

Lemma decimal_to_number_reads : reads_decimal decimal_to_number.
Proof.
  intros n Hn; unfold decimal_to_number, decimal.
  rewrite NilZero.isi.
  - now rewrite DecimalZ.of_to.
  - destruct n as [|p|p]; simpl; try discriminate.
    intro H; injection H as H; now apply (Unsigned.to_uint_nonnil p).
  - destruct n as [|p|p]; simpl; try discriminate; lia.
Qed.

Lemma number_to_decimal_writes : writes_decimal number_to_decimal.
Proof.
  intros q n _ Hq; unfold number_to_decimal.
  now rewrite (Qfloor_comp _ _ Hq), Qfloor_Z.
Qed.

Lemma decimal_four_digits (y : Z) :
  (1000 <= y <= 9999)%Z -> String.length (decimal y) = 4%nat.
Proof.
  intro Hy.
  assert (Hall : forallb
                   (fun k => String.length (decimal (Z.of_nat k)) =? 4)%nat
                   (seq (Z.to_nat 1000) (Z.to_nat 9000)) = true)
    by (vm_compute; reflexivity).
  rewrite forallb_forall in Hall.
  specialize (Hall (Z.to_nat y)).
  rewrite Z2Nat.id in Hall by lia.
  apply Nat.eqb_eq, Hall, in_seq; lia.
Qed.

Section ControlFacts.

Variable StringToNumber : string -> num.
Variable NumberToString : num -> string.

Let blocked (s : calendar) : calendar :=
  log [Alert "Sorry, the year must be four-digits in length.";
       SelectYear; FocusYear] s.

(** X13: when the text of the year is not four characters long, each
    control
    shows the alert, selects and focuses the year field, and changes
    neither the month nor the year. *)
Theorem controls_refuse_year (s : calendar) :
  String.length (year_value s) <> 4%nat ->
  selectDate s = blocked s /\
  setPreviousYear StringToNumber NumberToString s = blocked s /\
  setPreviousMonth StringToNumber NumberToString s = blocked s /\
  setNextMonth StringToNumber NumberToString s = blocked s /\
  setNextYear StringToNumber NumberToString s = blocked s.
Proof.
  intro H; apply Nat.eqb_neq in H.
  unfold selectDate, setPreviousYear, setPreviousMonth, setNextMonth,
    setNextYear, isFourDigitYear.
  rewrite H; repeat split.
Qed.

(** X14: with a year of four characters and a month among the twelve
    options,
    the next month is the month plus one and the previous month the month
    minus one, both modulo 12; stepping the year or selecting the date leaves
    the month alone; no alert is shown. *)
Theorem controls_step_month (s : calendar) :
  String.length (year_value s) = 4%nat ->
  month_options s = 12%Z -> (0 <= selectedIndex s <= 11)%Z ->
  let m := selectedIndex s in
  selectedIndex (setNextMonth StringToNumber NumberToString s)
  = ((m + 1) mod 12)%Z /\
  selectedIndex (setPreviousMonth StringToNumber NumberToString s)
  = ((m - 1) mod 12)%Z /\
  selectedIndex (setNextYear StringToNumber NumberToString s) = m /\
  selectedIndex (setPreviousYear StringToNumber NumberToString s) = m /\
  selectDate s = s /\
  events (setNextMonth StringToNumber NumberToString s) = events s /\
  events (setPreviousMonth StringToNumber NumberToString s) = events s.
Proof.
  intros Hlen Hopt Hm m; subst m.
  unfold selectDate, setPreviousYear, setPreviousMonth, setNextMonth,
    setNextYear, isFourDigitYear.
  rewrite Hlen; cbn [Nat.eqb negb].
  destruct s as [opts m y f e]; cbn in Hopt, Hm; subst opts.
  assert (m = 0 \/ m = 1 \/ m = 2 \/ m = 3 \/ m = 4 \/ m = 5 \/ m = 6 \/
          m = 7 \/ m = 8 \/ m = 9 \/ m = 10 \/ m = 11)%Z as Hc by lia.
  repeat (destruct Hc as [->|Hc]);
    try subst m; cbn - [num_ltb];
    destruct (num_ltb (Fin 1000) (StringToNumber y)); repeat split.
Qed.

Hypothesis reads : reads_decimal StringToNumber.
Hypothesis writes : writes_decimal NumberToString.

Lemma next_year_value (y : Z) :
  (0 <= y < 2 ^ 53)%Z ->
  NumberToString (StringToNumber (decimal y) + Fin 1)%js = decimal (y + 1).
Proof.
  intro Hy; rewrite reads by lia; unfold of_Z; cbn [JS.add].
  apply writes; [lia|].
  rewrite inject_Z_plus; reflexivity.
Qed.

Lemma previous_year_value (y : Z) :
  (1 <= y <= 2 ^ 53)%Z ->
  NumberToString (StringToNumber (decimal y) - Fin 1)%js = decimal (y - 1).
Proof.
  intro Hy; rewrite reads by lia; unfold of_Z; cbn [JS.sub].
  apply writes; [lia|].
  unfold Z.sub; rewrite inject_Z_plus; reflexivity.
Qed.

Lemma after_1000 (y : Z) :
  (0 <= y <= 2 ^ 53)%Z ->
  num_ltb (Fin 1000) (StringToNumber (decimal y)) = (1000 <? y)%Z.
Proof.
  intro Hy; rewrite reads by lia; unfold of_Z, num_ltb, Qltb.
  destruct (Z.ltb_spec 1000 y) as [H|H].
  - apply negb_true_iff.
    destruct (Qle_bool (inject_Z y) 1000) eqn:E; [|reflexivity].
    apply Qle_bool_iff in E.
    change 1000 with (inject_Z 1000) in E; rewrite <- Zle_Qle in E; lia.
  - apply negb_false_iff, Qle_bool_iff.
    change 1000 with (inject_Z 1000); rewrite <- Zle_Qle; lia.
Qed.

(** X15: from a year of 1000 to 9998, the next year is the year plus one,
    and
    stepping back restores the page; stepping forward again gives the next
    year's page again. *)
Theorem year_steps_round_trip (s : calendar) (y : Z) :
  year_value s = decimal y -> (1000 <= y <= 9998)%Z ->
  let next := setNextYear StringToNumber NumberToString s in
  year_value next = decimal (y + 1) /\
  setPreviousYear StringToNumber NumberToString next = s /\
  setNextYear StringToNumber NumberToString
    (setPreviousYear StringToNumber NumberToString next) = next.
Proof.
  intros Hy Hr next.
  assert (Hprev : setPreviousYear StringToNumber NumberToString next = s).
  { subst next; destruct s as [opts m yv f e]; cbn in Hy; subst yv.
    unfold setNextYear, setPreviousYear, isFourDigitYear; cbn.
    rewrite (decimal_four_digits y) by lia; cbn.
    rewrite next_year_value by lia.
    rewrite (decimal_four_digits (y + 1)) by lia; cbn.
    rewrite previous_year_value by lia.
    unfold set_year_value; cbn; do 2 f_equal; lia. }
  split; [|split; [exact Hprev | now rewrite Hprev]].
  subst next; destruct s as [opts m yv f e]; cbn in Hy; subst yv.
  unfold setNextYear, isFourDigitYear; cbn.
  rewrite (decimal_four_digits y) by lia; cbn.
  now rewrite next_year_value by lia.
Qed.

(** X16: which controls keep a year of four digits, from a year of 1000
    to 9999:
    the next year does below 9999, the previous year does above 1000, the
    previous month always does, and the next month does except in December
    of 9999. *)
Theorem year_keeps_four_digits (s : calendar) (y : Z) :
  year_value s = decimal y -> (1000 <= y <= 9999)%Z ->
  let four (s' : calendar) := (String.length (year_value s') =? 4)%nat in
  four (setNextYear StringToNumber NumberToString s) = (y <? 9999)%Z /\
  four (setPreviousYear StringToNumber NumberToString s) = (1000 <? y)%Z /\
  four (setPreviousMonth StringToNumber NumberToString s) = true /\
  four (setNextMonth StringToNumber NumberToString s)
  = negb ((selectedIndex s =? 11) && (y =? 9999))%Z.
Proof.
  intros Hy Hr four; subst four.
  destruct s as [opts m yv f e]; cbn in Hy; subst yv.
  unfold setNextYear, setPreviousYear, setPreviousMonth, setNextMonth,
    isFourDigitYear; cbn - [num_ltb].
  rewrite (decimal_four_digits y) by lia; cbn - [num_ltb].
  rewrite next_year_value, previous_year_value, after_1000 by lia.
  assert (H4 : forall z, (1000 <= z <= 9999)%Z ->
                         (String.length (decimal z) =? 4)%nat = true).
  { intros z Hz; now rewrite decimal_four_digits. }
  split; [|split; [|split]].
  - destruct (Z.ltb_spec y 9999); [apply H4; lia|].
    replace y with 9999%Z by lia; reflexivity.
  - destruct (Z.ltb_spec 1000 y); [apply H4; lia|].
    replace y with 1000%Z by lia; reflexivity.
  - destruct (m =? 0)%Z; [destruct (Z.ltb_spec 1000 y)|]; cbn;
      apply H4; lia.
  - destruct (m =? 11)%Z; cbn; [|apply H4; lia].
    destruct (Z.eqb_spec y 9999) as [->|Hne]; [reflexivity|].
    apply H4; lia.
Qed.

(** X17: counting months as [12 * year + month]: the next month adds one;
    the
    previous month takes one away, except in January of the year 1000, where
    the year is kept and the page moves to December of the same year. *)
Theorem month_steps_count (s : calendar) (y : Z) :
  year_value s = decimal y -> (1000 <= y <= 9999)%Z ->
  month_options s = 12%Z -> (0 <= selectedIndex s <= 11)%Z ->
  let m := selectedIndex s in
  let next := setNextMonth StringToNumber NumberToString s in
  let previous := setPreviousMonth StringToNumber NumberToString s in
  exists y1 y2 : Z,
    year_value next = decimal y1 /\
    (12 * y1 + selectedIndex next = 12 * y + m + 1)%Z /\
    year_value previous = decimal y2 /\
    (12 * y2 + selectedIndex previous
     = 12 * y + m + (if (m =? 0) && (y =? 1000) then 11 else -1))%Z.
Proof.
  intros Hy Hr Hopt Hm m next previous; subst m next previous.
  destruct s as [opts m yv f e]; cbn in Hy, Hopt, Hm; subst yv opts.
  unfold setPreviousMonth, setNextMonth, isFourDigitYear; cbn - [num_ltb Z.mul].
  rewrite (decimal_four_digits y) by lia; cbn - [num_ltb Z.mul].
  rewrite next_year_value, previous_year_value, after_1000 by lia.
  exists (if (m =? 11)%Z then y + 1 else y)%Z.
  exists (if ((m =? 0) && (1000 <? y))%Z then y - 1 else y)%Z.
  assert (m = 0 \/ m = 1 \/ m = 2 \/ m = 3 \/ m = 4 \/ m = 5 \/ m = 6 \/
          m = 7 \/ m = 8 \/ m = 9 \/ m = 10 \/ m = 11)%Z as Hc by lia.
  destruct (Z.ltb_spec 1000 y); destruct (Z.eqb_spec y 1000); try lia;
    repeat (destruct Hc as [->|Hc]); try subst m; cbn - [Z.mul];
    repeat split; (reflexivity || lia).
Qed.

(** X18: unless the page shows December of 9999, the previous month undoes
    the
    next month, and the next month then gives the same page again. *)
Theorem month_steps_round_trip (s : calendar) (y : Z) :
  year_value s = decimal y -> (1000 <= y <= 9999)%Z ->
  month_options s = 12%Z -> (0 <= selectedIndex s <= 11)%Z ->
  (selectedIndex s < 11 \/ y < 9999)%Z ->
  let next := setNextMonth StringToNumber NumberToString s in
  setPreviousMonth StringToNumber NumberToString next = s /\
  setNextMonth StringToNumber NumberToString
    (setPreviousMonth StringToNumber NumberToString next) = next.
Proof.
  intros Hy Hr Hopt Hm Hnot next.
  assert (Hprev : setPreviousMonth StringToNumber NumberToString next = s).
  { subst next.
    destruct s as [opts m yv f e]; cbn in Hy, Hopt, Hm, Hnot; subst yv opts.
    unfold setPreviousMonth, setNextMonth, isFourDigitYear; cbn - [num_ltb].
    rewrite (decimal_four_digits y) by lia; cbn - [num_ltb].
    destruct (Z.eqb_spec m 11) as [->|H11].
    - cbn - [num_ltb].
      rewrite next_year_value by lia.
      rewrite (decimal_four_digits (y + 1)) by lia; cbn - [num_ltb].
      rewrite after_1000, previous_year_value by lia.
      destruct (Z.ltb_spec 1000 (y + 1)); [|lia].
      unfold set_selectedIndex, set_year_value; cbn; do 2 f_equal; lia.
    - unfold set_selectedIndex; cbn - [num_ltb].
      destruct (Z.leb_spec 0 (m + 1)); [|lia].
      destruct (Z.ltb_spec (m + 1) 12); [|lia]; cbn - [num_ltb].
      rewrite (decimal_four_digits y) by lia; cbn - [num_ltb].
      destruct (Z.eqb_spec (m + 1) 0); [lia|]; cbn.
      replace (m + 1 - 1)%Z with m by lia.
      destruct (Z.leb_spec 0 m); [|lia].
      destruct (Z.ltb_spec m 12); [|lia]; reflexivity. }
  split; [exact Hprev | now rewrite Hprev].
Qed.

(** X19: [setToday] shows the month and the day of the clock.  Its
    correction of
    [getYear()] shows the full year up to 3899; from 3900 on, [getYear()] is
    2000 or more, is taken for a full year, and the page shows the year minus
    1900. *)
Theorem setToday_year (now : clock) (s : calendar) :
  (0 <= getFullYear now <= 2 ^ 53)%Z ->
  (0 <= getMonth now < month_options s)%Z ->
  let today := setToday NumberToString now s in
  year_value today
  = decimal (if (getFullYear now <? 3900)%Z then getFullYear now
             else getFullYear now - 1900) /\
  selectedIndex today = getMonth now /\
  focusDay today = Some (getDate now) /\
  events today = events s.
Proof.
  intros Hy Hm today; subst today.
  unfold setToday, getYear; cbn.
  destruct (Z.leb_spec 0 (getMonth now)); [|lia].
  destruct (Z.ltb_spec (getMonth now) (month_options s)); [|lia].
  split; [|repeat split].
  destruct (Z.ltb_spec (getFullYear now - 1900) 2000);
    destruct (Z.ltb_spec (getFullYear now) 3900); try lia;
    unfold of_Z; apply writes; try lia; try reflexivity.
  replace (getFullYear now - 1900 + 1900)%Z with (getFullYear now) by lia.
  reflexivity.
Qed.

End ControlFacts.

Lemma controls_refuse_year_witness :
  setNextYear decimal_to_number number_to_decimal (page 0 999)
  = log [Alert "Sorry, the year must be four-digits in length.";
         SelectYear; FocusYear] (page 0 999).
Proof.
  apply (controls_refuse_year decimal_to_number number_to_decimal
           (page 0 999)).
  discriminate.
Defined.

Lemma controls_step_month_witness :
  selectedIndex (setNextMonth decimal_to_number number_to_decimal
                   (page 11 2015)) = 0%Z.
Proof.
  apply (controls_step_month decimal_to_number number_to_decimal
           (page 11 2015)); [reflexivity | reflexivity | cbn; lia].
Defined.

Lemma year_steps_round_trip_witness :
  setPreviousYear decimal_to_number number_to_decimal
    (setNextYear decimal_to_number number_to_decimal (page 5 2015))
  = page 5 2015.
Proof.
  apply (year_steps_round_trip decimal_to_number number_to_decimal
           decimal_to_number_reads number_to_decimal_writes
           (page 5 2015) 2015); [reflexivity | lia].
Defined.

Lemma year_keeps_four_digits_witness :
  (String.length
     (year_value (setNextYear decimal_to_number number_to_decimal
                    (page 5 9999))) =? 4)%nat = false.
Proof.
  apply (year_keeps_four_digits decimal_to_number number_to_decimal
           decimal_to_number_reads number_to_decimal_writes
           (page 5 9999) 9999); [reflexivity | lia].
Defined.

Lemma month_steps_count_witness :
  exists y1 y2 : Z,
    year_value (setNextMonth decimal_to_number number_to_decimal
                  (page 0 1000)) = decimal y1 /\
    (12 * y1
     + selectedIndex (setNextMonth decimal_to_number number_to_decimal
                        (page 0 1000)) = 12 * 1000 + 0 + 1)%Z /\
    year_value (setPreviousMonth decimal_to_number number_to_decimal
                  (page 0 1000)) = decimal y2 /\
    (12 * y2
     + selectedIndex (setPreviousMonth decimal_to_number number_to_decimal
                        (page 0 1000)) = 12 * 1000 + 0 + 11)%Z.
Proof.
  apply (month_steps_count decimal_to_number number_to_decimal
           decimal_to_number_reads number_to_decimal_writes
           (page 0 1000) 1000);
    [reflexivity | lia | reflexivity | cbn; lia].
Defined.

Lemma month_steps_round_trip_witness :
  setPreviousMonth decimal_to_number number_to_decimal
    (setNextMonth decimal_to_number number_to_decimal (page 11 2015))
  = page 11 2015.
Proof.
  apply (month_steps_round_trip decimal_to_number number_to_decimal
           decimal_to_number_reads number_to_decimal_writes
           (page 11 2015) 2015);
    [reflexivity | lia | reflexivity | cbn; lia | right; lia].
Defined.

Lemma setToday_year_witness :
  year_value
    (setToday number_to_decimal
       {| getDate := 2; getMonth := 10; getFullYear := 3900 |} (page 0 2015))
  = decimal 2000.
Proof.
  apply (setToday_year number_to_decimal number_to_decimal_writes
           {| getDate := 2; getMonth := 10; getFullYear := 3900 |}
           (page 0 2015)); cbn; lia.
Defined.
